(** * Knowledge base: directory synchronisation, persistence and top-k search

    A shallow embedding of [knowledge_base.py] (class [KnowledgeBase]) and
    the properties of its synchronisation and retrieval engine.

    Conventions of the embedding.
    - A Python [str] is a [string] holding its UTF-8 encoding; substring
      search on valid UTF-8 agrees with substring search on code points.
    - A Python [float] ([st_mtime], an embedding component, a similarity
      score) is an exact integer [Z]: the code only compares mtimes for
      equality and orders scores, no rounding is involved in either.
    - [self] is the record [KnowledgeBase]; the storage directory is [Disk];
      everything printed and every call to an external service is recorded
      in a trace.
    - Exceptions are an outcome of the monad [M]; a mutation of [self] made
      before an exception is raised stays, as in Python. *)

From Stdlib Require Import ZArith List String Ascii Sorting Permutation Lia Bool.
From stdpp Require Import base gmap sets list strings.

(** ** Python strings *)

Module PyStr.

Definition newline : ascii := "010"%char.

(** [s.split(sep)[0]]: the part of [s] before the first occurrence of
    [sep], all of [s] when there is none. *)
Fixpoint split_head (sep s : string) : string :=
  match s with
  | EmptyString => EmptyString
  | String c s' =>
      if String.prefix sep s then EmptyString else String c (split_head sep s')
  end.

(** [s.replace(old, new)] for a non-empty [old]: occurrences are found
    left to right and do not overlap; [skip] counts the characters of a
    matched occurrence still to be passed over. *)
Fixpoint replace_from (old new : string) (skip : nat) (s : string) : string :=
  match s with
  | EmptyString => EmptyString
  | String c s' =>
      match skip with
      | S k => replace_from old new k s'
      | O =>
          if String.prefix old s
          then new +:+ replace_from old new (String.length old - 1) s'
          else String c (replace_from old new 0 s')
      end
  end.

Definition replace (old new s : string) : string := replace_from old new 0 s.

(** [old in s] *)
Fixpoint occurs (old s : string) : bool :=
  match s with
  | EmptyString => String.prefix old EmptyString
  | String _ s' => String.prefix old s || occurs old s'
  end.

Fixpoint has_char (c : ascii) (s : string) : bool :=
  match s with
  | EmptyString => false
  | String a s' => Ascii.eqb a c || has_char c s'
  end.

(** [s.split(c)] for a one-character separator. *)
Fixpoint split_on (c : ascii) (s : string) : list string :=
  match s with
  | EmptyString => [EmptyString]
  | String a s' =>
      if Ascii.eqb a c then EmptyString :: split_on c s'
      else match split_on c s' with
           | h :: t => String a h :: t
           | [] => [String a EmptyString]
           end
  end.

(** [sep.join(l)] *)
Fixpoint join (sep : string) (l : list string) : string :=
  match l with
  | [] => EmptyString
  | [x] => x
  | x :: rest => x +:+ sep +:+ join sep rest
  end.

(** [s.rfind(c)] *)
Fixpoint rfind (c : ascii) (s : string) : option nat :=
  match s with
  | EmptyString => None
  | String a s' =>
      match rfind c s' with
      | Some i => Some (S i)
      | None => if Ascii.eqb a c then Some 0 else None
      end
  end.

Definition lower_ascii (a : ascii) : ascii :=
  let n := nat_of_ascii a in
  if (65 <=? n) && (n <=? 90) then ascii_of_nat (n + 32) else a.

(** [s.lower()], on the ASCII letters. *)
Fixpoint lower (s : string) : string :=
  match s with
  | EmptyString => EmptyString
  | String a s' => String (lower_ascii a) (lower s')
  end.

End PyStr.

(** ** pathlib, POSIX flavour *)

Module PyPath.

(** A path is its anchor ([true] for the root [/]) and its components. *)
Record Path := mkPath { anchored : bool; parts : list string }.

Definition slash : ascii := "/"%char.

Definition is_component (p : string) : bool :=
  negb (String.eqb p "") && negb (String.eqb p ".").

(** [Path(s)]: empty and [.] components are dropped. *)
Definition of_string (s : string) : Path :=
  {| anchored := String.prefix "/" s;
     parts := List.filter is_component (PyStr.split_on slash s) |}.

(** [str(p)] *)
Definition str (p : Path) : string :=
  match parts p with
  | [] => if anchored p then "/" else "."
  | _ => (if anchored p then "/" else "") +:+ PyStr.join "/" (parts p)
  end.

(** [p / rel], for the components [rel] of a relative path. *)
Definition joinpath (p : Path) (rel : list string) : Path :=
  {| anchored := anchored p; parts := parts p ++ rel |}.

(** [p.absolute()] in the working directory [cwd]; no normalisation. *)
Definition absolute (cwd : list string) (p : Path) : Path :=
  if anchored p then p else {| anchored := true; parts := cwd ++ parts p |}.

Fixpoint strip_prefix (pre l : list string) : option (list string) :=
  match pre, l with
  | [], _ => Some l
  | a :: pre', b :: l' => if String.eqb a b then strip_prefix pre' l' else None
  | _ :: _, [] => None
  end.

(** [p.relative_to(other)]; [None] stands for the [ValueError]. *)
Definition relative_to (p other : Path) : option Path :=
  if Bool.eqb (anchored p) (anchored other) then
    match strip_prefix (parts other) (parts p) with
    | Some rest => Some {| anchored := false; parts := rest |}
    | None => None
    end
  else None.

(** [p.suffix] *)
Definition suffix (p : Path) : string :=
  let name := List.last (parts p) EmptyString in
  match PyStr.rfind "."%char name with
  | Some i =>
      if (0 <? i) && (i <? String.length name - 1)
      then String.substring i (String.length name - i) name
      else EmptyString
  | None => EmptyString
  end.

End PyPath.

Import PyPath.

(** ** Exceptions, the store, the storage directory and the trace *)

Inductive exn :=
  | ValueError        (* unsupported suffix; [relative_to]; [np.dot] shapes *)
  | IndexError
  | OSError           (* a file that cannot be opened or decoded *)
  | ResponseError     (* the embedding service *)
  | JSONDecodeError
  | UnpicklingError.

Inductive outcome (A : Type) :=
  | Ok (a : A)
  | Raise (e : exn).
Arguments Ok {A} a.
Arguments Raise {A} e.

#[global] Instance outcome_ret : MRet outcome := λ A a, Ok a.
#[global] Instance outcome_bind : MBind outcome := λ A B f o,
  match o with Ok a => f a | Raise e => Raise e end.

Definition vector := list Z.

(** The value [{'mtime': ...}] kept for every processed file. *)
Record FileMeta := mkMeta { mtime : Z }.

(** The attributes of [self] that change. *)
Record KnowledgeBase := mkKB {
  documents : list string;
  embeddings : list vector;
  metadata : gmap string FileMeta
}.

(** The content of a persisted file: something the matching loader
    ([json.load], [pickle.load]) reads back as [v], or something it rejects. *)
Inductive artifact (A : Type) :=
  | Parsed (v : A)
  | Unparsable.
Arguments Parsed {A} v.
Arguments Unparsable {A}.

(** The three files of [storage_dir]; [None] when the file does not exist. *)
Record Disk := mkDisk {
  documents_file : option (artifact (list string));     (* documents.json *)
  embeddings_file : option (artifact (list vector));    (* embeddings.pkl *)
  metadata_file : option (artifact (gmap string FileMeta))  (* metadata.json *)
}.

Inductive message :=
  | Updated (relative_path : string)              (* 已更新文件 *)
  | Added (relative_path : string)                (* 已添加文件 *)
  | ProcessingError (file_path : string) (e : exn)  (* 处理文件 ... 时出错 *)
  | Deleted (doc_path : string)                   (* 已删除文件 *)
  | DeletedTotal (removed_count : nat)            (* 共删除了 ... 个文件 *)
  | Cleared.                                      (* 知识库已清空 *)

Inductive event :=
  | Print (msg : message)
  | EmbedCall (prompt : string)      (* [ollama.embeddings] *)
  | ReadCall (path : string).        (* a file opened by [read_file_content] *)

(** [trace] holds the events so far, the latest first. *)
Record Machine := mkMachine {
  self : KnowledgeBase;
  disk : Disk;
  trace : list event
}.

(** What the program does not control. The embedding service may answer
    differently from one call to the next: its answer depends on the number
    of events before the call. The file system does not change. *)
Record World := mkWorld {
  cwd : list string;
  fs_rglob : Path → list (list string);
    (* [directory.rglob('*')]: every entry below [directory], as the
       components of its path relative to [directory] *)
  fs_mtime : string → Z;                        (* [stat().st_mtime] *)
  fs_read_text : string → outcome string;       (* [open(..., 'r').read()] *)
  docx_paragraphs : string → outcome (list string);
  pdf_pages : string → outcome (list string);
    (* the three by the absolute path, as the system resolves it *)
  ollama_embeddings : nat → string → outcome vector;
  np_argsort : list Z → list nat
}.

(** ** The monad: state and exceptions *)

Definition M (A : Type) : Type := Machine → outcome A * Machine.

#[global] Instance M_ret : MRet M := λ A a m, (Ok a, m).
#[global] Instance M_bind : MBind M := λ A B f c m,
  match c m with
  | (Ok a, m') => f a m'
  | (Raise e, m') => (Raise e, m')
  end.

Definition raise {A} (e : exn) : M A := λ m, (Raise e, m).

Definition lift {A} (o : outcome A) : M A := λ m, (o, m).

(** [try: body except Exception as e: handler(e)] *)
Definition try_except {A} (body : M A) (handler : exn → M A) : M A := λ m,
  match body m with
  | (Ok a, m') => (Ok a, m')
  | (Raise e, m') => handler e m'
  end.

Definition get_self : M KnowledgeBase := λ m, (Ok (self m), m).

Definition put_self (kb : KnowledgeBase) : M unit := λ m,
  (Ok tt, {| self := kb; disk := disk m; trace := trace m |}).

Definition set_documents (d : list string) : M unit := λ m,
  put_self {| documents := d; embeddings := embeddings (self m);
              metadata := metadata (self m) |} m.

Definition set_embeddings (e : list vector) : M unit := λ m,
  put_self {| documents := documents (self m); embeddings := e;
              metadata := metadata (self m) |} m.

Definition set_metadata (md : gmap string FileMeta) : M unit := λ m,
  put_self {| documents := documents (self m);
              embeddings := embeddings (self m); metadata := md |} m.

Definition get_disk : M Disk := λ m, (Ok (disk m), m).

Definition put_disk (d : Disk) : M unit := λ m,
  (Ok tt, {| self := self m; disk := d; trace := trace m |}).

Definition emit (ev : event) : M unit := λ m,
  (Ok tt, {| self := self m; disk := disk m; trace := ev :: trace m |}).

Definition print (msg : message) : M unit := emit (Print msg).

Definition run {A} (c : M A) (m : Machine) : outcome A * Machine := c m.

(** ** The class [KnowledgeBase] *)

Definition nl : string := String PyStr.newline EmptyString.

(** The identity tag put in front of every synchronised document. *)
Definition tag : string := "文件: ".

(** [f"文件: {relative_path}\n\n{content}"] *)
Definition make_document (relative_path content : string) : string :=
  tag +:+ relative_path +:+ nl +:+ nl +:+ content.

(** [doc.split('\n\n')[0].replace('文件: ', '')] *)
Definition doc_path (doc : string) : string :=
  PyStr.replace tag "" (PyStr.split_head (nl +:+ nl) doc).

(** The search loop of the update: the first index whose document carries
    the identity [relative_path], counting from [i]. *)
Fixpoint find_doc_index (relative_path : string) (i : nat) (docs : list string)
  : option nat :=
  match docs with
  | [] => None
  | doc :: rest =>
      if String.eqb (doc_path doc) relative_path then Some i
      else find_doc_index relative_path (S i) rest
  end.

Definition default_extensions : list string :=
  [".txt"; ".md"; ".py"; ".docx"; ".pdf"].

(** [np.dot] of two one-dimensional arrays; shapes that differ raise. *)
Fixpoint np_dot (a b : vector) : outcome Z :=
  match a, b with
  | [], [] => Ok 0%Z
  | x :: a', y :: b' => r ← np_dot a' b'; Ok (x * y + r)%Z
  | _, _ => Raise ValueError
  end.

(** The loop that fills [similarities]. *)
Fixpoint similarities_of (query_embedding : vector) (embs : list vector)
  : outcome (list Z) :=
  match embs with
  | [] => Ok []
  | doc_embedding :: rest =>
      similarity ← np_dot query_embedding doc_embedding;
      sims ← similarities_of query_embedding rest;
      Ok (similarity :: sims)
  end.

(** [a[start:]] with Python's reading of a negative [start]. *)
Definition slice_from {A} (start : Z) (a : list A) : list A :=
  let n := Z.of_nat (length a) in
  let s := if (start <? 0)%Z then Z.max (n + start) 0 else Z.min start n in
  drop (Z.to_nat s) a.

(** One entry of the result of [search]. *)
Record Hit := mkHit { content : string; similarity : Z }.

(** The loop that fills [results]. *)
Fixpoint results_of (docs : list string) (similarities : list Z)
    (top_indices : list nat) : outcome (list Hit) :=
  match top_indices with
  | [] => Ok []
  | idx :: rest =>
      match docs !! idx, similarities !! idx with
      | Some d, Some s =>
          hits ← results_of docs similarities rest;
          Ok ({| content := d; similarity := s |} :: hits)
      | _, _ => Raise IndexError
      end
  end.

(** [str(Path(abs_path).relative_to(directory))] *)
Definition relative_str (directory : Path) (abs_path : string) : option string :=
  str <$> relative_to (of_string abs_path) directory.

(** The set comprehension [current_relative_paths]: one [ValueError] in it
    ends the whole comprehension. *)
Definition current_relative_paths (directory : Path) (current_files : gset string)
  : outcome (gset string) :=
  match mapM (relative_str directory) (elements current_files) with
  | Some l => Ok (list_to_set l)
  | None => Raise ValueError
  end.

(** The test of the metadata clean-up: the key is kept when its path
    relative to [directory] exists and is a current one. *)
Definition keep_metadata (directory : Path) (crp : gset string)
    (abs_path : string) : bool :=
  match relative_str directory abs_path with
  | Some relative_path => bool_decide (relative_path ∈ crp)
  | None => false
  end.

Definition prune_metadata (directory : Path) (crp : gset string)
    (md : gmap string FileMeta) : gmap string FileMeta :=
  filter (λ kv : string * FileMeta, keep_metadata directory crp kv.1 = true) md.

(** [json.load] and [pickle.load] on the content of a file. *)
Definition parse {A} (e : exn) (a : artifact A) : outcome A :=
  match a with
  | Parsed v => Ok v
  | Unparsable => Raise e
  end.

Section Operations.

Context (W : World).

(** [ollama.embeddings(model='nomic-embed-text', prompt=...)['embedding']] *)
Definition ollama_embed (prompt : string) : M vector := λ m,
  (ollama_embeddings W (length (trace m)) prompt,
   {| self := self m; disk := disk m; trace := EmbedCall prompt :: trace m |}).

Definition system_path (p : Path) : string := str (absolute (cwd W) p).

Definition load_documents : M (list string) :=
  d ← get_disk;
  match documents_file d with
  | Some a => lift (parse JSONDecodeError a)
  | None => mret []
  end.

Definition load_embeddings : M (list vector) :=
  d ← get_disk;
  match embeddings_file d with
  | Some a => lift (parse UnpicklingError a)
  | None => mret []
  end.

Definition load_metadata : M (gmap string FileMeta) :=
  d ← get_disk;
  match metadata_file d with
  | Some a => lift (parse JSONDecodeError a)
  | None => mret ∅
  end.

(** [__init__]: the three attributes are loaded in this order. *)
Definition init : M unit :=
  md ← load_metadata;
  set_metadata md;;
  docs ← load_documents;
  set_documents docs;;
  embs ← load_embeddings;
  set_embeddings embs.

Definition save_data : M unit :=
  kb ← get_self;
  d ← get_disk;
  put_disk {| documents_file := Some (Parsed (documents kb));
              embeddings_file := embeddings_file d;
              metadata_file := metadata_file d |};;
  d ← get_disk;
  put_disk {| documents_file := documents_file d;
              embeddings_file := Some (Parsed (embeddings kb));
              metadata_file := metadata_file d |}.

Definition save_metadata : M unit :=
  kb ← get_self;
  d ← get_disk;
  put_disk {| documents_file := documents_file d;
              embeddings_file := embeddings_file d;
              metadata_file := Some (Parsed (metadata kb)) |}.

Definition add_document (content : string) : M unit :=
  embedding ← ollama_embed content;
  kb ← get_self;
  set_documents (documents kb ++ [content]);;
  kb ← get_self;
  set_embeddings (embeddings kb ++ [embedding]).

Definition search (query : string) (top_k : Z) : M (list Hit) :=
  query_embedding ← ollama_embed query;
  kb ← get_self;
  similarities ← lift (similarities_of query_embedding (embeddings kb));
  let top_indices := rev (slice_from (- top_k) (np_argsort W similarities)) in
  lift (results_of (documents kb) similarities top_indices).

Definition read_file_content (file_path : Path) : M string :=
  let suffix := PyStr.lower (suffix file_path) in
  if bool_decide (suffix ∈ [".txt"; ".md"; ".py"]) then
    emit (ReadCall (system_path file_path));;
    lift (fs_read_text W (system_path file_path))
  else if String.eqb suffix ".docx" then
    emit (ReadCall (system_path file_path));;
    paragraphs ← lift (docx_paragraphs W (system_path file_path));
    mret (PyStr.join nl paragraphs)
  else if String.eqb suffix ".pdf" then
    emit (ReadCall (system_path file_path));;
    pages ← lift (pdf_pages W (system_path file_path));
    mret (fold_left (λ text page, text +:+ page +:+ nl) pages EmptyString)
  else raise ValueError.

Definition check_file_changes (file_path : Path) : M bool :=
  let relative_path := str file_path in
  let mtime_now := fs_mtime W (system_path file_path) in
  kb ← get_self;
  match metadata kb !! relative_path with
  | None => mret true
  | Some meta => mret (negb (mtime_now =? mtime meta)%Z)
  end.

(** The body of the [try] of [add_documents_from_directory]. *)
Definition process_file (directory file_path : Path) (abs_path : string) : M unit :=
  content ← read_file_content file_path;
  relative_path ← lift (match relative_to file_path directory with
                        | Some r => Ok (str r)
                        | None => Raise ValueError
                        end);
  let document := make_document relative_path content in
  kb ← get_self;
  match find_doc_index relative_path 0 (documents kb) with
  | Some doc_index =>
      set_documents (<[doc_index := document]> (documents kb));;
      response ← ollama_embed content;
      kb ← get_self;
      (if bool_decide (doc_index < length (embeddings kb))
       then set_embeddings (<[doc_index := response]> (embeddings kb))
       else raise IndexError);;
      print (Updated relative_path)
  | None =>
      add_document document;;
      print (Added relative_path)
  end;;
  kb ← get_self;
  set_metadata (<[abs_path := {| mtime := fs_mtime W (system_path file_path) |}]>
                  (metadata kb)).

(** One turn of the loop over [directory.rglob('*')]. *)
Definition visit (directory : Path) (file_extensions : list string)
    (current_files : gset string) (entry : list string) : M (gset string) :=
  let file_path := joinpath directory entry in
  if bool_decide (PyStr.lower (suffix file_path) ∈ file_extensions) then
    let abs_path := str (absolute (cwd W) file_path) in
    let current_files := current_files ∪ {[abs_path]} in
    changed ← check_file_changes file_path;
    (if changed : bool then
       try_except (process_file directory file_path abs_path)
                  (λ e, print (ProcessingError (str file_path) e))
     else mret tt);;
    mret current_files
  else mret current_files.

Fixpoint scan (directory : Path) (file_extensions : list string)
    (current_files : gset string) (entries : list (list string))
  : M (gset string) :=
  match entries with
  | [] => mret current_files
  | entry :: rest =>
      current_files ← visit directory file_extensions current_files entry;
      scan directory file_extensions current_files rest
  end.

(** The loop that rebuilds the two lists without the documents whose
    identity is not a current relative path; [i] is the index of the head
    of [docs] in [self.documents]. *)
Fixpoint retain_present (crp : gset string) (embs : list vector) (i : nat)
    (docs : list string) (new_documents : list string)
    (new_embeddings : list vector) (removed_count : nat)
  : M (list string * list vector * nat) :=
  match docs with
  | [] => mret (new_documents, new_embeddings, removed_count)
  | doc :: rest =>
      if bool_decide (doc_path doc ∈ crp) then
        match embs !! i with
        | Some e =>
            retain_present crp embs (S i) rest (new_documents ++ [doc])
                           (new_embeddings ++ [e]) removed_count
        | None => raise IndexError
        end
      else
        print (Deleted (doc_path doc));;
        retain_present crp embs (S i) rest new_documents new_embeddings
                       (S removed_count)
  end.

Definition add_documents_from_directory (directory_path : string)
    (file_extensions : list string) : M unit :=
  let directory := of_string directory_path in
  current_files ← scan directory file_extensions ∅ (fs_rglob W directory);
  crp ← lift (current_relative_paths directory current_files);
  kb ← get_self;
  r ← retain_present crp (embeddings kb) 0 (documents kb) [] [] 0;
  let '(new_documents, new_embeddings, removed_count) := r in
  (if (0 <? removed_count)%nat then
     set_documents new_documents;;
     set_embeddings new_embeddings;;
     kb ← get_self;
     set_metadata (prune_metadata directory crp (metadata kb));;
     print (DeletedTotal removed_count)
   else mret tt);;
  save_data;;
  save_metadata.

Definition clear_knowledge_base : M unit :=
  put_self {| documents := []; embeddings := []; metadata := ∅ |};;
  put_disk {| documents_file := None; embeddings_file := None;
              metadata_file := None |};;
  print Cleared.

End Operations.

(** ** Notions the properties are stated with *)

(** The alignment of the two parallel lists. *)
Definition aligned (kb : KnowledgeBase) : Prop :=
  length (documents kb) = length (embeddings kb).

Definition empty_kb : KnowledgeBase :=
  {| documents := []; embeddings := []; metadata := ∅ |}.

Definition is_error (ev : event) : bool :=
  match ev with
  | Print (ProcessingError _ _) => true
  | _ => false
  end.

(** The number of per-file errors printed so far. *)
Definition errors_logged (m : Machine) : nat :=
  length (List.filter is_error (trace m)).

Definition is_external_call (ev : event) : bool :=
  match ev with
  | EmbedCall _ | ReadCall _ => true
  | Print _ => false
  end.

(** The entry is one the synchronisation looks at. *)
Definition recognised (directory : Path) (file_extensions : list string)
    (entry : list string) : bool :=
  bool_decide (PyStr.lower (suffix (joinpath directory entry)) ∈ file_extensions).

(** The value of [current_files] after the loop over [entries]. *)
Definition collect_files (W : World) (directory : Path)
    (file_extensions : list string) (current_files : gset string)
    (entries : list (list string)) : gset string :=
  fold_left
    (λ cf entry,
       if recognised directory file_extensions entry
       then cf ∪ {[str (absolute (cwd W) (joinpath directory entry))]}
       else cf)
    entries current_files.


(** A file name: not empty, not [.], without a slash. *)
Definition file_name (p : string) : bool :=
  is_component p && negb (PyStr.has_char slash p).


(** A relative path that the identity tag carries without damage: no line
    break in it and no occurrence of the tag text. *)
Definition tag_safe (relative_path : string) : bool :=
  negb (PyStr.has_char PyStr.newline relative_path)
  && negb (PyStr.occurs tag relative_path).

(** The pairs kept by the removal pass. *)
Definition retained (crp : string → Prop) `{∀ x, Decision (crp x)}
    (pairs : list (string * vector)) : list (string * vector) :=
  filter (λ de : string * vector, crp (doc_path de.1)) pairs.

(** The score of index [i], as [np.argsort] reads the array. *)
Definition score (xs : list Z) (i : nat) : Z := nth i xs 0%Z.

(** What [np.argsort] promises whatever the [kind] of sort: the indices of
    the array, each once, in an order in which the scores ascend. *)
Definition argsort_ok (argsort : list Z → list nat) : Prop :=
  ∀ xs, argsort xs ≡ₚ seq 0 (length xs)
        ∧ StronglySorted (λ i j, (score xs i <= score xs j)%Z) (argsort xs).

(** A stable argsort (insertion sort): what [np.argsort] computes with
    [kind='stable'], and with the default [kind] on short arrays. *)
Fixpoint insert_index (xs : list Z) (i : nat) (sorted : list nat) : list nat :=
  match sorted with
  | [] => [i]
  | j :: rest =>
      if (score xs i <=? score xs j)%Z then i :: j :: rest
      else j :: insert_index xs i rest
  end.

Definition stable_argsort (xs : list Z) : list nat :=
  foldr (insert_index xs) [] (seq 0 (length xs)).

Definition descending (hits : list Hit) : Prop :=
  StronglySorted (λ a b, (similarity b <= similarity a)%Z) hits.

(** The hit of index [i]. *)
Definition hit_at (docs : list string) (sims : list Z) (i : nat) : Hit :=
  {| content := nth i docs EmptyString; similarity := score sims i |}.

(** The selection as the specification words it: the hits in descending
    order of score, equal scores in store order, and the first [k] of them. *)
Fixpoint insert_hit (h : Hit) (sorted : list Hit) : list Hit :=
  match sorted with
  | [] => [h]
  | h' :: rest =>
      if (similarity h' <? similarity h)%Z then h :: h' :: rest
      else h' :: insert_hit h rest
  end.

Definition spec_top_k (k : nat) (docs : list string) (sims : list Z) : list Hit :=
  take k (fold_left (λ acc h, insert_hit h acc)
                    (map (hit_at docs sims) (seq 0 (length sims))) []).

(** [idxs] selects the [k] highest scores of [sims] (all of them when there
    are fewer than [k]): each index once, scores descending, and no index
    left out scores higher than a selected one. *)
Definition top_selection (sims : list Z) (k : nat) (idxs : list nat) : Prop :=
  length idxs = Nat.min k (length sims)
  ∧ NoDup idxs
  ∧ (∀ i, i ∈ idxs → i < length sims)
  ∧ StronglySorted (λ i j, (score sims j <= score sims i)%Z) idxs
  ∧ (∀ i j, i ∈ idxs → j < length sims → j ∉ idxs →
            (score sims j <= score sims i)%Z).

(** The machine after one more event, and with another store. *)
Definition log (ev : event) (m : Machine) : Machine :=
  {| self := self m; disk := disk m; trace := ev :: trace m |}.

Definition with_self (kb : KnowledgeBase) (m : Machine) : Machine :=
  {| self := kb; disk := disk m; trace := trace m |}.

(** The answer of [check_file_changes] for the metadata [md]. *)
Definition file_changed (W : World) (md : gmap string FileMeta) (file_path : Path)
  : bool :=
  match md !! str file_path with
  | None => true
  | Some meta => negb (fs_mtime W (system_path W file_path) =? mtime meta)%Z
  end.

(** The machine after [save_data] and [save_metadata]. *)
Definition saved (m : Machine) : Machine :=
  {| self := self m;
     disk := {| documents_file := Some (Parsed (documents (self m)));
                embeddings_file := Some (Parsed (embeddings (self m)));
                metadata_file := Some (Parsed (metadata (self m))) |};
     trace := trace m |}.

(** The lines printed by the removal pass for [docs], the latest first. *)
Definition deletions (crp : gset string) (docs : list string) : list event :=
  rev (map (λ doc, Print (Deleted (doc_path doc)))
           (filter (λ doc, doc_path doc ∉ crp) docs)).

(** ** Concrete worlds and stores *)

(** A world whose directory listing, modification times, file texts and
    embedding service are given; [.docx] and [.pdf] files cannot be read. *)
Definition example_world (entries : list (list string)) (mt : string → Z)
    (text : string → outcome string)
    (embed : nat → string → outcome vector) : World :=
  {| cwd := ["home"; "user"];
     fs_rglob := λ _, entries;
     fs_mtime := mt;
     fs_read_text := text;
     docx_paragraphs := λ _, Raise OSError;
     pdf_pages := λ _, Raise OSError;
     ollama_embeddings := embed;
     np_argsort := stable_argsort |}.

Definition text_v1 (p : string) : outcome string := Ok ("first text of " +:+ p).
Definition text_v2 (p : string) : outcome string := Ok ("second text of " +:+ p).

(** An embedding service that always answers. *)
Definition embed_ok (t : nat) (prompt : string) : outcome vector :=
  Ok [Z.of_nat (String.length prompt); 1%Z].

(** An embedding service that is down. *)
Definition embed_down (t : nat) (prompt : string) : outcome vector :=
  Raise ResponseError.

(** An embedding service that is down for its first calls only. *)
Definition embed_flaky (t : nat) (prompt : string) : outcome vector :=
  if (t <? 2)%nat then Raise ResponseError else embed_ok t prompt.

Definition fresh_machine : Machine :=
  {| self := empty_kb;
     disk := {| documents_file := None; embeddings_file := None;
                metadata_file := None |};
     trace := [] |}.

(** [/docs] holds [a.txt] and [b.md]. *)
Definition world_two_files : World :=
  example_world [["a.txt"]; ["b.md"]] (λ _, 100%Z) text_v1 embed_ok.


(** The same edit, with the embedding service down. *)
Definition world_a_edited_down : World :=
  example_world [["a.txt"]; ["b.md"]]
    (λ p, if String.eqb p "/docs/a.txt" then 200%Z else 100%Z)
    (λ p, if String.eqb p "/docs/a.txt" then text_v2 p else text_v1 p)
    embed_down.


Definition world_flaky : World :=
  example_world [["a.txt"]] (λ _, 100%Z) text_v1 embed_flaky.

Definition sync (W : World) : M unit :=
  add_documents_from_directory W "/docs" default_extensions.

(** The machine after the first synchronisation of the two files. *)
Definition machine_two_files : Machine :=
  Eval vm_compute in snd (run (sync world_two_files) fresh_machine).

(** A store of two documents with equal scores for the query. *)
Definition machine_tie : Machine :=
  {| self := {| documents := ["A"; "B"]; embeddings := [[1%Z]; [1%Z]];
                metadata := ∅ |};
     disk := disk fresh_machine;
     trace := [] |}.

(** The scenario of three documents with scores 90, 95 and 20. *)
Definition machine_scores : Machine :=
  {| self := {| documents := ["A"; "B"; "C"];
                embeddings := [[90%Z]; [95%Z]; [20%Z]];
                metadata := ∅ |};
     disk := disk fresh_machine;
     trace := [] |}.

Definition world_search : World :=
  example_world [] (λ _, 0%Z) text_v1 (λ _ _, Ok [1%Z]).

(** A storage directory whose [documents.json] is not JSON. *)
Definition machine_corrupt : Machine :=
  {| self := empty_kb;
     disk := {| documents_file := Some Unparsable; embeddings_file := None;
                metadata_file := None |};
     trace := [] |}.



(** ** The query entry point *)

(** The prompt of [query], the f-string with [context] and [question]. *)
Definition prompt_template (context question : string) : string :=
  "基于以下上下文回答问题:" +:+ nl +:+ nl +:+ "上下文:" +:+ nl +:+ context
  +:+ nl +:+ nl +:+ "问题: " +:+ question +:+ nl +:+ nl
  +:+ "请基于上述上下文提供准确的回答。如果上下文中没有相关信息，请说明无法回答。".

(** The answer service: [requests.post(url, json=payload, headers=headers)]
    followed by [response.json()['choices']], each choice given by its
    [['message']['content']]. It raises when the request fails, when the
    body is not JSON and when the body has no choices; like the embedding
    service it may answer differently from one call to the next. *)
Definition AnswerService : Type := nat → string → outcome (list string).

Definition post_chat (chat : AnswerService) (prompt : string) : M (list string) :=
  λ m, (chat (length (trace m)) prompt, m).

(** [query]: the three best documents are the context of the question. *)
Definition query (W : World) (chat : AnswerService) (question : string) : M string :=
  relevant_docs ← search W question 3;
  let context := PyStr.join nl (map content relevant_docs) in
  choices ← post_chat chat (prompt_template context question);
  match choices with
  | [] => raise IndexError
  | answer :: _ => mret answer
  end.

(** An answer service that repeats the prompt it was given. *)
Definition chat_echo : AnswerService := λ _ prompt, Ok [prompt].

(** [/data] holds one file of a format that [read_file_content] does not
    know. *)
Definition world_csv : World :=
  example_world [["table.csv"]] (λ _, 100%Z) text_v1 embed_ok.

(** A store whose vectors have two components. *)
Definition world_search_wide : World :=
  example_world [] (λ _, 0%Z) text_v1 (λ _ _, Ok [1%Z; 1%Z]).

(** What [query] returns for the reply of the answer service: the content
    of the first choice. *)
Definition first_choice (reply : outcome (list string)) : outcome string :=
  match reply with
  | Ok (answer :: _) => Ok answer
  | Ok [] => Raise IndexError
  | Raise e => Raise e
  end.

(** * Properties *)

(** ** Running the monad *)

Lemma run_bind {A B} (c : M A) (f : A → M B) (m : Machine) :
  run (c ≫= f) m =
  match run c m with
  | (Ok a, m') => run (f a) m'
  | (Raise e, m') => (Raise e, m')
  end.
Proof. reflexivity. Qed.

Lemma machine_eta (m : Machine) :
  {| self := self m; disk := disk m; trace := trace m |} = m.
Proof. by destruct m. Qed.

Lemma kb_eta (kb : KnowledgeBase) :
  {| documents := documents kb; embeddings := embeddings kb;
     metadata := metadata kb |} = kb.
Proof. by destruct kb. Qed.

Lemma run_print_then {A} (msg : message) (c : M A) (m : Machine) :
  run (print msg;; c) m = run c (log (Print msg) m).
Proof. reflexivity. Qed.

(** ** Persistence *)

Lemma run_load_documents (m : Machine) :
  run load_documents m =
  (match documents_file (disk m) with
   | None => Ok []
   | Some (Parsed v) => Ok v
   | Some Unparsable => Raise JSONDecodeError
   end, m).
Proof.
  unfold run, load_documents, mbind, M_bind, get_disk. simpl.
  destruct (documents_file (disk m)) as [[v|]|]; reflexivity.
Qed.

Lemma run_load_embeddings (m : Machine) :
  run load_embeddings m =
  (match embeddings_file (disk m) with
   | None => Ok []
   | Some (Parsed v) => Ok v
   | Some Unparsable => Raise UnpicklingError
   end, m).
Proof.
  unfold run, load_embeddings, mbind, M_bind, get_disk. simpl.
  destruct (embeddings_file (disk m)) as [[v|]|]; reflexivity.
Qed.

Lemma run_load_metadata (m : Machine) :
  run load_metadata m =
  (match metadata_file (disk m) with
   | None => Ok ∅
   | Some (Parsed v) => Ok v
   | Some Unparsable => Raise JSONDecodeError
   end, m).
Proof.
  unfold run, load_metadata, mbind, M_bind, get_disk. simpl.
  destruct (metadata_file (disk m)) as [[v|]|]; reflexivity.
Qed.

Lemma run_init (m : Machine) :
  run init m =
  match metadata_file (disk m), documents_file (disk m), embeddings_file (disk m) with
  | Some Unparsable, _, _ => (Raise JSONDecodeError, m)
  | md, Some Unparsable, _ =>
      (Raise JSONDecodeError,
       {| self := {| documents := documents (self m);
                     embeddings := embeddings (self m);
                     metadata := match md with Some (Parsed v) => v | _ => ∅ end |};
          disk := disk m; trace := trace m |})
  | md, docs, Some Unparsable =>
      (Raise UnpicklingError,
       {| self := {| documents := match docs with Some (Parsed v) => v | _ => [] end;
                     embeddings := embeddings (self m);
                     metadata := match md with Some (Parsed v) => v | _ => ∅ end |};
          disk := disk m; trace := trace m |})
  | md, docs, embs =>
      (Ok tt,
       {| self := {| documents := match docs with Some (Parsed v) => v | _ => [] end;
                     embeddings := match embs with Some (Parsed v) => v | _ => [] end;
                     metadata := match md with Some (Parsed v) => v | _ => ∅ end |};
          disk := disk m; trace := trace m |})
  end.
Proof.
  destruct m as [kb [df ef mf] t].
  unfold run, init, load_metadata, load_documents, load_embeddings, mbind,
    M_bind, get_disk, set_metadata, set_documents, set_embeddings, put_self,
    lift, parse, mret, M_ret.
  simpl.
  destruct mf as [[?|]|], df as [[?|]|], ef as [[?|]|]; reflexivity.
Qed.

(** C7, as the claim states it, fails: a [documents.json] that does not
    parse makes the constructor raise; it is not read as an absent file. *)
Lemma corrupt_documents_file_raises :
  run init machine_corrupt = (Raise JSONDecodeError, machine_corrupt)
  ∧ ¬ ∃ m', run init machine_corrupt = (Ok tt, m') ∧ self m' = empty_kb.
Proof.
  split; [reflexivity|].
  intros (m' & Hrun & _). vm_compute in Hrun. discriminate.
Qed.

(** C7, amended: an absent file yields the empty value of its attribute
    and a file that parses yields its value; a file that exists and does
    not parse makes its loader raise. The constructor yields the empty
    store when the three files are absent, and it completes exactly when
    none of the three files is unparsable. *)
Theorem load_absent_is_empty_unparsable_raises (kb : KnowledgeBase) (d : Disk)
    (t : list event) :
  let m := {| self := kb; disk := d; trace := t |} in
  let absent := {| documents_file := None; embeddings_file := None;
                   metadata_file := None |} in
  run load_documents m =
    (match documents_file d with
     | None => Ok []
     | Some (Parsed v) => Ok v
     | Some Unparsable => Raise JSONDecodeError
     end, m)
  ∧ run load_embeddings m =
    (match embeddings_file d with
     | None => Ok []
     | Some (Parsed v) => Ok v
     | Some Unparsable => Raise UnpicklingError
     end, m)
  ∧ run load_metadata m =
    (match metadata_file d with
     | None => Ok ∅
     | Some (Parsed v) => Ok v
     | Some Unparsable => Raise JSONDecodeError
     end, m)
  ∧ run init {| self := kb; disk := absent; trace := t |} =
    (Ok tt, {| self := empty_kb; disk := absent; trace := t |})
  ∧ ((∃ m', run init m = (Ok tt, m'))
     ↔ documents_file d ≠ Some Unparsable
       ∧ embeddings_file d ≠ Some Unparsable
       ∧ metadata_file d ≠ Some Unparsable).
Proof.
  intros m absent.
  split; [apply run_load_documents|].
  split; [apply run_load_embeddings|].
  split; [apply run_load_metadata|].
  split; [reflexivity|].
  rewrite run_init. subst m. simpl.
  destruct d as [df ef mf]. simpl.
  destruct mf as [[?|]|], df as [[?|]|], ef as [[?|]|]; simpl;
    (split; [intros [m' Hm']; try discriminate; repeat split; discriminate
            |intros (H1 & H2 & H3); try congruence; eexists; reflexivity]).
Qed.

Lemma run_save (m : Machine) :
  run (save_data;; save_metadata) m =
  (Ok tt,
   {| self := self m;
      disk := {| documents_file := Some (Parsed (documents (self m)));
                 embeddings_file := Some (Parsed (embeddings (self m)));
                 metadata_file := Some (Parsed (metadata (self m))) |};
      trace := trace m |}).
Proof. reflexivity. Qed.

(** C9: after [save_data] and [save_metadata], a new instance constructed
    over the same storage directory holds the documents, the embeddings
    and the metadata that were saved. *)
Theorem save_then_load_roundtrip (m : Machine) (kb0 : KnowledgeBase)
    (t : list event) :
  let saved := snd (run (save_data;; save_metadata) m) in
  let loaded := run init {| self := kb0; disk := disk saved; trace := t |} in
  fst loaded = Ok tt
  ∧ documents (self (snd loaded)) = documents (self m)
  ∧ embeddings (self (snd loaded)) = embeddings (self m)
  ∧ metadata (self (snd loaded)) = metadata (self m)
  ∧ self (snd loaded) = self m
  ∧ self saved = self m.
Proof.
  intros saved loaded. subst saved loaded.
  rewrite run_save, run_init. simpl.
  repeat split; try reflexivity. apply kb_eta.
Qed.

(** ** The argsort *)

Lemma insert_index_perm (xs : list Z) (i : nat) (l : list nat) :
  insert_index xs i l ≡ₚ i :: l.
Proof.
  induction l as [|j l IH]; simpl; [done|].
  destruct (score xs i <=? score xs j)%Z; [done|].
  rewrite IH. apply Permutation_swap.
Qed.

Lemma insert_index_sorted (xs : list Z) (i : nat) (l : list nat) :
  StronglySorted (λ a b, (score xs a <= score xs b)%Z) l →
  StronglySorted (λ a b, (score xs a <= score xs b)%Z) (insert_index xs i l).
Proof.
  induction l as [|j l IH]; simpl; intros Hs.
  - constructor; [constructor|constructor].
  - apply StronglySorted_inv in Hs as [Hl Hj].
    destruct (score xs i <=? score xs j)%Z eqn:Hij.
    + apply Z.leb_le in Hij. constructor.
      * by constructor.
      * constructor; [done|].
        eapply Forall_impl; [exact Hj|]. simpl. intros k Hk. lia.
    + apply Z.leb_gt in Hij. constructor; [by apply IH|].
      rewrite insert_index_perm. constructor; [lia|done].
Qed.

Lemma stable_argsort_ok : argsort_ok stable_argsort.
Proof.
  intros xs. unfold stable_argsort.
  generalize (seq 0 (length xs)) as l.
  induction l as [|i l [IHp IHs]]; simpl.
  - split; [done|constructor].
  - split.
    + by rewrite insert_index_perm, IHp.
    + by apply insert_index_sorted.
Qed.

Lemma argsort_ok_bound (argsort : list Z → list nat) (xs : list Z) (i : nat) :
  argsort_ok argsort → i ∈ argsort xs → i < length xs.
Proof.
  intros Hok Hi. destruct (Hok xs) as [Hp _].
  rewrite Hp in Hi. apply list_elem_of_In, in_seq in Hi. lia.
Qed.

Lemma argsort_ok_length (argsort : list Z → list nat) (xs : list Z) :
  argsort_ok argsort → length (argsort xs) = length xs.
Proof.
  intros Hok. destruct (Hok xs) as [Hp _].
  by rewrite Hp, length_seq.
Qed.

Lemma argsort_ok_NoDup (argsort : list Z → list nat) (xs : list Z) :
  argsort_ok argsort → NoDup (argsort xs).
Proof.
  intros Hok. destruct (Hok xs) as [Hp _].
  rewrite Hp. apply NoDup_ListNoDup, seq_NoDup.
Qed.

(** ** Slices and sorted lists *)

Lemma slice_from_last {A} (k : Z) (a : list A) :
  (1 <= k)%Z → slice_from (- k) a = drop (length a - Z.to_nat k) a.
Proof.
  intros Hk. unfold slice_from.
  destruct (- k <? 0)%Z eqn:Hneg; [|apply Z.ltb_ge in Hneg; lia].
  f_equal. lia.
Qed.

Lemma slice_from_zero {A} (a : list A) : slice_from (- 0) a = a.
Proof. unfold slice_from. simpl. by rewrite Z.min_l by lia. Qed.

Lemma StronglySorted_drop {A} (R : A → A → Prop) (n : nat) (l : list A) :
  StronglySorted R l → StronglySorted R (drop n l).
Proof.
  revert l. induction n as [|n IH]; intros l Hs; [by rewrite drop_0|].
  destruct l as [|x l]; [done|].
  simpl. apply IH. by apply StronglySorted_inv in Hs as [? _].
Qed.

Lemma StronglySorted_app_cross {A} (R : A → A → Prop) (l1 l2 : list A) (x y : A) :
  StronglySorted R (l1 ++ l2) → x ∈ l1 → y ∈ l2 → R x y.
Proof.
  induction l1 as [|a l1 IH]; simpl; intros Hs Hx Hy.
  - by apply elem_of_nil in Hx.
  - apply StronglySorted_inv in Hs as [Hs Ha].
    apply elem_of_cons in Hx as [->|Hx]; [|by apply IH].
    rewrite Forall_forall in Ha. apply Ha. apply elem_of_app. by right.
Qed.

Lemma StronglySorted_snoc {A} (R : A → A → Prop) (l : list A) (x : A) :
  StronglySorted R l → Forall (λ y, R y x) l → StronglySorted R (l ++ [x]).
Proof.
  induction l as [|a l IH]; simpl; intros Hs Hx.
  - constructor; constructor.
  - apply StronglySorted_inv in Hs as [Hs Ha].
    apply Forall_cons in Hx as [Hax Hx].
    constructor; [by apply IH|].
    apply Forall_app. split; [done|]. by constructor.
Qed.

Lemma StronglySorted_rev {A} (R : A → A → Prop) (l : list A) :
  StronglySorted R l → StronglySorted (λ a b, R b a) (rev l).
Proof.
  induction l as [|a l IH]; simpl; intros Hs; [constructor|].
  apply StronglySorted_inv in Hs as [Hs Ha].
  apply StronglySorted_snoc; [by apply IH|].
  rewrite Forall_forall in Ha |- *. intros y Hy. apply Ha.
  by rewrite list_elem_of_In, <- in_rev, <- list_elem_of_In in Hy.
Qed.

Lemma StronglySorted_map {A B} (R : B → B → Prop) (f : A → B) (l : list A) :
  StronglySorted (λ a b, R (f a) (f b)) l → StronglySorted R (map f l).
Proof.
  induction 1 as [|a l Hs IH Ha]; simpl; constructor; [done|].
  by apply Forall_map.
Qed.

(** ** Search *)

Lemma np_dot_ok (a b : vector) :
  length a = length b → ∃ s, np_dot a b = Ok s.
Proof.
  revert b. induction a as [|x a IH]; intros [|y b] Hl; simplify_eq/=; eauto.
  destruct (IH b) as [s Hs]; [done|]. rewrite Hs. simpl. eauto.
Qed.

Lemma similarities_of_lookup (q : vector) (embs : list vector) (sims : list Z) :
  similarities_of q embs = Ok sims →
  length sims = length embs
  ∧ ∀ i e, embs !! i = Some e → np_dot q e = Ok (score sims i).
Proof.
  revert sims. induction embs as [|e0 embs IH]; simpl; intros sims Hs.
  - simplify_eq. split; [done|]. intros i e Hi. by rewrite lookup_nil in Hi.
  - destruct (np_dot q e0) as [s|] eqn:Hd; simpl in Hs; [|done].
    destruct (similarities_of q embs) as [sims'|] eqn:Hr; simpl in Hs; [|done].
    simplify_eq. destruct (IH sims' eq_refl) as [Hl Hi]. split; [simpl; lia|].
    intros [|i] e He; simpl in *; [by simplify_eq|]. by apply Hi.
Qed.

Lemma similarities_of_ok (q : vector) (embs : list vector) :
  Forall (λ e, length e = length q) embs → ∃ sims, similarities_of q embs = Ok sims.
Proof.
  induction 1 as [|e embs He _ [sims IH]]; simpl; [eauto|].
  destruct (np_dot_ok q e) as [s Hs]; [done|].
  rewrite Hs, IH. simpl. eauto.
Qed.

Lemma results_of_ok (docs : list string) (sims : list Z) (idxs : list nat) :
  Forall (λ i, i < length docs ∧ i < length sims) idxs →
  results_of docs sims idxs = Ok (map (hit_at docs sims) idxs).
Proof.
  induction 1 as [|i idxs [Hd Hs] _ IH]; simpl; [done|].
  destruct (lookup_lt_is_Some_2 docs i Hd) as [d Hdi].
  destruct (lookup_lt_is_Some_2 sims i Hs) as [s Hsi].
  rewrite Hdi, Hsi, IH. simpl. unfold hit_at, score.
  by rewrite !nth_lookup, Hdi, Hsi.
Qed.

Lemma run_search (W : World) (query : string) (top_k : Z) (m : Machine)
    (q : vector) (sims : list Z) :
  ollama_embeddings W (length (trace m)) query = Ok q →
  similarities_of q (embeddings (self m)) = Ok sims →
  run (search W query top_k) m =
  (results_of (documents (self m)) sims
              (rev (slice_from (- top_k) (np_argsort W sims))),
   {| self := self m; disk := disk m; trace := EmbedCall query :: trace m |}).
Proof.
  intros Hq Hs.
  unfold run, search, mbind, M_bind, ollama_embed, get_self, lift. simpl.
  rewrite Hq. simpl. by rewrite Hs.
Qed.

(** The indices selected by [np.argsort(similarities)[-top_k:][::-1]] for a
    positive [top_k]. *)
Lemma top_indices_spec (argsort : list Z → list nat) (sims : list Z) (top_k : Z) :
  argsort_ok argsort → (1 <= top_k)%Z →
  top_selection sims (Z.to_nat top_k) (rev (slice_from (- top_k) (argsort sims))).
Proof.
  intros Hok Hk.
  rewrite slice_from_last by done.
  pose proof (argsort_ok_length argsort sims Hok) as Hlen.
  pose proof (argsort_ok_NoDup argsort sims Hok) as Hnd.
  destruct (Hok sims) as [Hperm Hsorted].
  set (d := length (argsort sims) - Z.to_nat top_k) in *.
  assert (Hin : ∀ i, i ∈ rev (drop d (argsort sims)) ↔ i ∈ drop d (argsort sims)).
  { intros i. by rewrite !list_elem_of_In, <- in_rev. }
  repeat split.
  - rewrite length_rev, length_drop. lia.
  - apply NoDup_ListNoDup, NoDup_rev, NoDup_ListNoDup.
    rewrite <- (take_drop d (argsort sims)) in Hnd.
    by apply NoDup_app in Hnd as (_ & _ & ?).
  - intros i Hi. apply Hin in Hi.
    eapply argsort_ok_bound; [done|]. by eapply subseteq_drop.
  - apply (StronglySorted_rev (λ i j, (score sims i <= score sims j)%Z)).
    by apply StronglySorted_drop.
  - intros i j Hi Hj Hnj. apply Hin in Hi.
    assert (Hjall : j ∈ argsort sims).
    { rewrite Hperm. apply list_elem_of_In, in_seq. lia. }
    rewrite <- (take_drop d (argsort sims)) in Hjall, Hsorted.
    apply elem_of_app in Hjall as [Hjl|Hjr].
    + by eapply (StronglySorted_app_cross _ _ _ j i) in Hsorted.
    + exfalso. apply Hnj. by apply Hin.
Qed.

Lemma top_selection_all (sims : list Z) (k : nat) (idxs : list nat) :
  top_selection sims k idxs → length sims ≤ k → idxs ≡ₚ seq 0 (length sims).
Proof.
  intros (Hlen & Hnd & Hb & _) Hk.
  apply submseteq_length_Permutation.
  - apply NoDup_submseteq; [done|].
    intros i Hi. apply list_elem_of_In, in_seq. specialize (Hb i Hi). lia.
  - rewrite length_seq. lia.
Qed.

Lemma descending_hits (docs : list string) (sims : list Z) (idxs : list nat) :
  StronglySorted (λ i j, (score sims j <= score sims i)%Z) idxs →
  descending (map (hit_at docs sims) idxs).
Proof. intros Hs. by apply StronglySorted_map. Qed.

(** C3, amended: when the query embedding is obtained and the stored
    vectors have its dimension, [search] with [top_k >= 1] returns, as
    (content, score) hits, the documents of [min top_k n] distinct indices
    whose scores are the dot products with the query embedding, in
    descending order of score, no document left out scoring higher than a
    returned one; all [n] documents when [top_k >= n]; nothing, and no
    error, for the empty store. The order among equal scores is the one
    [np.argsort] gives, reversed; it is not the store order. *)
Theorem search_returns_top_k (W : World) (query : string) (top_k : Z)
    (m : Machine) (q : vector) (sims : list Z) :
  argsort_ok (np_argsort W) →
  aligned (self m) →
  ollama_embeddings W (length (trace m)) query = Ok q →
  similarities_of q (embeddings (self m)) = Ok sims →
  (1 <= top_k)%Z →
  ∃ top_indices : list nat,
    fst (run (search W query top_k) m)
      = Ok (map (hit_at (documents (self m)) sims) top_indices)
    ∧ self (snd (run (search W query top_k) m)) = self m
    ∧ length sims = length (documents (self m))
    ∧ (∀ i e, embeddings (self m) !! i = Some e → np_dot q e = Ok (score sims i))
    ∧ top_selection sims (Z.to_nat top_k) top_indices
    ∧ descending (map (hit_at (documents (self m)) sims) top_indices)
    ∧ (length (documents (self m)) ≤ Z.to_nat top_k →
       top_indices ≡ₚ seq 0 (length (documents (self m))))
    ∧ (documents (self m) = [] → top_indices = []).
Proof.
  intros Hok Hal Hq Hs Hk.
  destruct (similarities_of_lookup _ _ _ Hs) as [Hlen Hdot].
  unfold aligned in Hal. rewrite <- Hal in Hlen.
  pose proof (top_indices_spec (np_argsort W) sims top_k Hok Hk) as Hsel.
  exists (rev (slice_from (- top_k) (np_argsort W sims))).
  rewrite (run_search W query top_k m q sims Hq Hs). simpl.
  split.
  { apply results_of_ok. apply Forall_forall. intros i Hi.
    destruct Hsel as (_ & _ & Hb & _). specialize (Hb i Hi). lia. }
  split; [done|]. split; [done|]. split; [done|]. split; [done|].
  split; [apply descending_hits; by destruct Hsel as (_ & _ & _ & ? & _)|].
  split.
  - intros Hn. rewrite <- Hlen. apply (top_selection_all _ _ _ Hsel). lia.
  - intros Hd. destruct Hsel as (Hl & _). rewrite Hlen, Hd in Hl. simpl in Hl.
    rewrite Nat.min_0_r in Hl. by apply nil_length_inv.
Qed.

(** The scenario of the three scores, with two hits asked for. *)
Lemma search_returns_top_k_witness :
  argsort_ok (np_argsort world_search)
  ∧ aligned (self machine_scores)
  ∧ (1 <= 2)%Z
  ∧ ∃ top_indices : list nat,
      fst (run (search world_search "q" 2) machine_scores)
        = Ok (map (hit_at ["A"; "B"; "C"] [90; 95; 20]%Z) top_indices)
      ∧ top_selection [90; 95; 20]%Z 2 top_indices.
Proof.
  split; [apply stable_argsort_ok|].
  split; [reflexivity|].
  split; [lia|].
  destruct (search_returns_top_k world_search "q" 2 machine_scores [1%Z]
              [90; 95; 20]%Z) as (idxs & Hrun & _ & _ & _ & Hsel & _).
  - apply stable_argsort_ok.
  - reflexivity.
  - reflexivity.
  - reflexivity.
  - lia.
  - exists idxs. split; [exact Hrun|exact Hsel].
Defined.

(** The scenario of the specification: A scores 0.9, B 0.95 and C 0.2 (in
    hundredths here); two hits are B, then A. *)
Example search_scenario :
  fst (run (search world_search "q" 2) machine_scores)
  = Ok [{| content := "B"; similarity := 95 |};
        {| content := "A"; similarity := 90 |}].
Proof. reflexivity. Qed.

(** C3, as the claim states it, fails on equal scores: with a stable
    argsort the later document comes first, where the claim has the store
    order. *)
Lemma search_ties_not_in_store_order :
  argsort_ok (np_argsort world_search)
  ∧ fst (run (search world_search "q" 1) machine_tie)
    = Ok [{| content := "B"; similarity := 1 |}]
  ∧ spec_top_k 1 ["A"; "B"] [1; 1]%Z = [{| content := "A"; similarity := 1 |}]
  ∧ fst (run (search world_search "q" 2) machine_tie)
    = Ok [{| content := "B"; similarity := 1 |};
          {| content := "A"; similarity := 1 |}]
  ∧ fst (run (search world_search "q" 2) machine_tie)
    ≠ Ok (spec_top_k 2 ["A"; "B"] [1; 1]%Z).
Proof.
  split; [apply stable_argsort_ok|].
  repeat split; try reflexivity.
  vm_compute. discriminate.
Qed.

(** C10: with [top_k = 0] the slice [[-0:]] is the whole array: [search]
    returns all [n] documents in descending order of score, and its result
    is empty only for the empty store. *)
Theorem search_zero_returns_all (W : World) (query : string) (m : Machine)
    (q : vector) (sims : list Z) :
  argsort_ok (np_argsort W) →
  aligned (self m) →
  ollama_embeddings W (length (trace m)) query = Ok q →
  similarities_of q (embeddings (self m)) = Ok sims →
  ∃ hits : list Hit,
    fst (run (search W query 0) m) = Ok hits
    ∧ length hits = length (documents (self m))
    ∧ descending hits
    ∧ hits ≡ₚ map (hit_at (documents (self m)) sims)
                  (seq 0 (length (documents (self m))))
    ∧ (hits = [] ↔ documents (self m) = []).
Proof.
  intros Hok Hal Hq Hs.
  destruct (similarities_of_lookup _ _ _ Hs) as [Hlen _].
  unfold aligned in Hal. rewrite <- Hal in Hlen.
  destruct (Hok sims) as [Hperm Hsorted].
  exists (map (hit_at (documents (self m)) sims) (rev (np_argsort W sims))).
  rewrite (run_search W query 0 m q sims Hq Hs). simpl.
  change (- 0)%Z with 0%Z. change 0%Z with (- 0)%Z. rewrite slice_from_zero.
  assert (Hp : rev (np_argsort W sims) ≡ₚ seq 0 (length (documents (self m)))).
  { rewrite <- Hlen, <- Hperm. symmetry. apply Permutation_rev. }
  assert (Hl : length (rev (np_argsort W sims)) = length (documents (self m))).
  { by rewrite Hp, length_seq. }
  split.
  { apply results_of_ok. apply Forall_forall. intros i Hi.
    rewrite Hp in Hi. apply list_elem_of_In, in_seq in Hi. lia. }
  split; [by rewrite length_map|].
  split.
  { apply descending_hits.
    apply (StronglySorted_rev (λ i j, (score sims i <= score sims j)%Z)), Hsorted. }
  split; [by rewrite Hp|].
  split.
  - intros Hnil. apply (f_equal length) in Hnil. rewrite length_map, Hl in Hnil.
    by apply nil_length_inv.
  - intros Hd. apply nil_length_inv. by rewrite length_map, Hl, Hd.
Qed.

(** Three documents, [top_k = 0]: the three come back. *)
Lemma search_zero_returns_all_witness :
  argsort_ok (np_argsort world_search)
  ∧ aligned (self machine_scores)
  ∧ ∃ hits : list Hit,
      fst (run (search world_search "q" 0) machine_scores) = Ok hits
      ∧ length hits = 3
      ∧ descending hits.
Proof.
  split; [apply stable_argsort_ok|].
  split; [reflexivity|].
  destruct (search_zero_returns_all world_search "q" machine_scores [1%Z]
              [90; 95; 20]%Z) as (hits & Hrun & Hlen & Hdesc & _).
  - apply stable_argsort_ok.
  - reflexivity.
  - reflexivity.
  - reflexivity.
  - exists hits. split; [exact Hrun|]. split; [exact Hlen|exact Hdesc].
Defined.

Example search_zero_scenario :
  fst (run (search world_search "q" 0) machine_scores)
  = Ok [{| content := "B"; similarity := 95 |};
        {| content := "A"; similarity := 90 |};
        {| content := "C"; similarity := 20 |}].
Proof. reflexivity. Qed.

(** ** Adding one document *)

Lemma run_add_document (W : World) (content : string) (m : Machine) :
  run (add_document W content) m =
  match ollama_embeddings W (length (trace m)) content with
  | Ok embedding =>
      (Ok tt,
       with_self {| documents := documents (self m) ++ [content];
                    embeddings := embeddings (self m) ++ [embedding];
                    metadata := metadata (self m) |}
                 (log (EmbedCall content) m))
  | Raise e => (Raise e, log (EmbedCall content) m)
  end.
Proof.
  unfold run, add_document, mbind, M_bind, ollama_embed, get_self,
    set_documents, set_embeddings, put_self, log, with_self. simpl.
  by destruct (ollama_embeddings W (length (trace m)) content).
Qed.

Lemma add_document_aligned (W : World) (content : string) (m : Machine) :
  aligned (self m) → aligned (self (snd (run (add_document W content) m))).
Proof.
  intros Hal. rewrite run_add_document.
  destruct (ollama_embeddings W (length (trace m)) content); simpl; [|done].
  unfold aligned in *. simpl. rewrite !length_app. simpl. lia.
Qed.

(** ** One file of the directory *)

Lemma run_read_file_content (W : World) (file_path : Path) (m : Machine) :
  ∃ (o : outcome string) (evs : list event),
    run (read_file_content W file_path) m
      = (o, {| self := self m; disk := disk m; trace := evs ++ trace m |})
    ∧ (evs = [] ∨ evs = [ReadCall (system_path W file_path)]).
Proof.
  unfold run, read_file_content, mbind, M_bind, emit, lift, raise. simpl.
  case_bool_decide.
  { destruct (fs_read_text W (system_path W file_path)) as [s|e];
      eexists _, [_]; split; eauto. }
  destruct (String.eqb _ ".docx").
  { destruct (docx_paragraphs W (system_path W file_path)) as [s|e];
      eexists _, [_]; split; eauto. }
  destruct (String.eqb _ ".pdf").
  { destruct (pdf_pages W (system_path W file_path)) as [s|e];
      eexists _, [_]; split; eauto. }
  eexists _, []. split; [|by left]. simpl. by rewrite machine_eta.
Qed.

Lemma run_check_file_changes (W : World) (file_path : Path) (m : Machine) :
  run (check_file_changes W file_path) m
  = (Ok (file_changed W (metadata (self m)) file_path), m).
Proof.
  unfold run, check_file_changes, file_changed, mbind, M_bind, get_self. simpl.
  by destruct (metadata (self m) !! str file_path).
Qed.

(** The body of the [try], case by case. *)
Lemma run_process_file (W : World) (directory file_path : Path)
    (abs_path : string) (m : Machine) :
  run (process_file W directory file_path abs_path) m =
  match run (read_file_content W file_path) m with
  | (Raise e, m1) => (Raise e, m1)
  | (Ok content, m1) =>
      match relative_to file_path directory with
      | None => (Raise ValueError, m1)
      | Some r =>
          let document := make_document (str r) content in
          let meta := {| mtime := fs_mtime W (system_path W file_path) |} in
          match find_doc_index (str r) 0 (documents (self m1)) with
          | Some doc_index =>
              let m2 :=
                with_self {| documents := <[doc_index := document]> (documents (self m1));
                             embeddings := embeddings (self m1);
                             metadata := metadata (self m1) |}
                          (log (EmbedCall content) m1) in
              match ollama_embeddings W (length (trace m1)) content with
              | Raise e => (Raise e, m2)
              | Ok response =>
                  if bool_decide (doc_index < length (embeddings (self m1))) then
                    (Ok tt,
                     with_self {| documents := <[doc_index := document]> (documents (self m1));
                                  embeddings := <[doc_index := response]> (embeddings (self m1));
                                  metadata := <[abs_path := meta]> (metadata (self m1)) |}
                               (log (Print (Updated (str r))) m2))
                  else (Raise IndexError, m2)
              end
          | None =>
              match ollama_embeddings W (length (trace m1)) document with
              | Raise e => (Raise e, log (EmbedCall document) m1)
              | Ok embedding =>
                  (Ok tt,
                   with_self {| documents := documents (self m1) ++ [document];
                                embeddings := embeddings (self m1) ++ [embedding];
                                metadata := <[abs_path := meta]> (metadata (self m1)) |}
                             (log (Print (Added (str r)))
                                  (log (EmbedCall document) m1)))
              end
          end
      end
  end.
Proof.
  unfold process_file. rewrite run_bind.
  destruct (run (read_file_content W file_path) m) as [[content|e] m1]; [|done].
  rewrite run_bind. unfold lift at 1. unfold run at 1.
  destruct (relative_to file_path directory) as [r|]; [|done].
  cbv zeta. rewrite run_bind. unfold get_self at 1. unfold run at 1.
  destruct (find_doc_index (str r) 0 (documents (self m1))) as [i|].
  - unfold run, mbind, M_bind, ollama_embed, get_self, set_documents,
      set_embeddings, set_metadata, put_self, print, emit, raise, log, with_self.
    simpl.
    destruct (ollama_embeddings W (length (trace m1)) content); [|done].
    simpl. by case_bool_decide.
  - rewrite !run_bind, run_add_document.
    destruct (ollama_embeddings W (length (trace m1)) _); [|done].
    reflexivity.
Qed.

(** One turn of the loop, case by case: the turn never raises. *)
Lemma run_visit (W : World) (directory : Path) (file_extensions : list string)
    (current_files : gset string) (entry : list string) (m : Machine) :
  run (visit W directory file_extensions current_files entry) m =
  let file_path := joinpath directory entry in
  let abs_path := str (absolute (cwd W) file_path) in
  if recognised directory file_extensions entry then
    if file_changed W (metadata (self m)) file_path then
      match run (process_file W directory file_path abs_path) m with
      | (Ok _, m') => (Ok (current_files ∪ {[abs_path]}), m')
      | (Raise e, m') =>
          (Ok (current_files ∪ {[abs_path]}),
           log (Print (ProcessingError (str file_path) e)) m')
      end
    else (Ok (current_files ∪ {[abs_path]}), m)
  else (Ok current_files, m).
Proof.
  unfold visit, recognised. cbv zeta.
  case_bool_decide; [|done].
  rewrite run_bind, run_check_file_changes.
  destruct (file_changed W (metadata (self m)) _); [|done].
  rewrite run_bind. unfold try_except. unfold run at 1.
  fold (run (process_file W directory (joinpath directory entry)
               (str (absolute (cwd W) (joinpath directory entry)))) m).
  destruct (run (process_file W directory _ _) m) as [[[]|e] m']; done.
Qed.

(** ** The loop over the directory *)

Lemma scan_outcome (W : World) (directory : Path) (file_extensions : list string)
    (entries : list (list string)) (current_files : gset string) (m : Machine) :
  fst (run (scan W directory file_extensions current_files entries) m)
  = Ok (collect_files W directory file_extensions current_files entries).
Proof.
  revert current_files m.
  induction entries as [|entry rest IH]; intros cf m; [done|].
  simpl scan. rewrite run_bind, run_visit. cbv zeta.
  unfold collect_files. simpl fold_left.
  destruct (recognised directory file_extensions entry); [|apply IH].
  destruct (file_changed W (metadata (self m)) _); [|apply IH].
  destruct (run (process_file W directory _ _) m) as [[[]|e] m']; apply IH.
Qed.

Lemma scan_cons (W : World) (directory : Path) (file_extensions : list string)
    (entry : list string) (rest : list (list string))
    (current_files : gset string) (m : Machine) :
  run (scan W directory file_extensions current_files (entry :: rest)) m
  = run (scan W directory file_extensions
           (collect_files W directory file_extensions current_files [entry]) rest)
        (snd (run (visit W directory file_extensions current_files entry) m)).
Proof.
  simpl scan. rewrite run_bind, run_visit. cbv zeta.
  unfold collect_files. simpl fold_left.
  destruct (recognised directory file_extensions entry); [|done].
  destruct (file_changed W (metadata (self m)) _); [|done].
  by destruct (run (process_file W directory _ _) m) as [[[]|e] m'].
Qed.

(** A property of the machine kept by every turn is kept by the loop. *)
Lemma scan_invariant (W : World) (directory : Path) (file_extensions : list string)
    (P : Machine → Prop) (entries : list (list string))
    (current_files : gset string) (m : Machine) :
  (∀ cf entry m0, P m0 →
     P (snd (run (visit W directory file_extensions cf entry) m0))) →
  P m → P (snd (run (scan W directory file_extensions current_files entries) m)).
Proof.
  intros Hstep. revert current_files m.
  induction entries as [|entry rest IH]; intros cf m Hm; [done|].
  rewrite scan_cons. apply IH, Hstep, Hm.
Qed.

Lemma read_file_content_self (W : World) (file_path : Path) (m : Machine) :
  self (snd (run (read_file_content W file_path) m)) = self m
  ∧ disk (snd (run (read_file_content W file_path) m)) = disk m.
Proof.
  destruct (run_read_file_content W file_path m) as (o & evs & -> & _). done.
Qed.

(** The body of the [try] keeps the two lists aligned, whatever its outcome. *)
Lemma process_file_aligned (W : World) (directory file_path : Path)
    (abs_path : string) (m : Machine) :
  aligned (self m) →
  aligned (self (snd (run (process_file W directory file_path abs_path) m))).
Proof.
  intros Hal. rewrite run_process_file.
  destruct (read_file_content_self W file_path m) as [Hself _].
  destruct (run (read_file_content W file_path) m) as [[content|e] m1];
    simpl in Hself; rewrite <- Hself in Hal; [|done].
  destruct (relative_to file_path directory) as [r|]; [|done].
  cbv zeta.
  destruct (find_doc_index (str r) 0 (documents (self m1))) as [i|].
  - destruct (ollama_embeddings W (length (trace m1)) content).
    + case_bool_decide; unfold aligned in *; simpl;
        by rewrite ?length_insert.
    + unfold aligned in *; simpl. by rewrite length_insert.
  - destruct (ollama_embeddings W (length (trace m1)) _); [|done].
    unfold aligned in *; simpl. rewrite !length_app. simpl. lia.
Qed.

Lemma visit_aligned (W : World) (directory : Path) (file_extensions : list string)
    (current_files : gset string) (entry : list string) (m : Machine) :
  aligned (self m) →
  aligned (self (snd (run (visit W directory file_extensions current_files entry) m))).
Proof.
  intros Hal. rewrite run_visit. cbv zeta.
  destruct (recognised directory file_extensions entry); [|done].
  destruct (file_changed W (metadata (self m)) _); [|done].
  pose proof (process_file_aligned W directory (joinpath directory entry)
                (str (absolute (cwd W) (joinpath directory entry))) m Hal) as H.
  by destruct (run (process_file W directory _ _) m) as [[[]|e] m'].
Qed.

Lemma scan_aligned (W : World) (directory : Path) (file_extensions : list string)
    (entries : list (list string)) (current_files : gset string) (m : Machine) :
  aligned (self m) →
  aligned (self (snd (run (scan W directory file_extensions current_files entries) m))).
Proof.
  apply (scan_invariant W directory file_extensions (λ m, aligned (self m))).
  intros cf entry m0. apply visit_aligned.
Qed.

(** ** The removal pass *)

Lemma retain_present_self (crp : gset string) (embs : list vector)
    (docs : list string) (i : nat) (nd : list string) (ne : list vector)
    (rc : nat) (m : Machine) :
  self (snd (run (retain_present crp embs i docs nd ne rc) m)) = self m
  ∧ disk (snd (run (retain_present crp embs i docs nd ne rc) m)) = disk m.
Proof.
  revert i nd ne rc m.
  induction docs as [|doc rest IH]; intros i nd ne rc m; [done|].
  simpl retain_present. case_bool_decide.
  - destruct (embs !! i) as [e|]; [apply IH|done].
  - rewrite !run_print_then.
    apply (IH (S i) nd ne (S rc) (log (Print (Deleted (doc_path doc))) m)).
Qed.

(** What the pass returns when it completes: one filter over the pairs
    (document, embedding), and one line printed for every document left out. *)
Lemma retain_present_result (crp : gset string) (embs : list vector)
    (docs : list string) (i : nat) (nd : list string) (ne : list vector)
    (rc : nat) (m : Machine) (nd' : list string) (ne' : list vector)
    (rc' : nat) (m' : Machine) :
  run (retain_present crp embs i docs nd ne rc) m = (Ok (nd', ne', rc'), m') →
  let pairs := retained (λ p, p ∈ crp) (zip docs (drop i embs)) in
  nd' = nd ++ pairs.*1
  ∧ ne' = ne ++ pairs.*2
  ∧ pairs.*1 = filter (λ doc, doc_path doc ∈ crp) docs
  ∧ rc' = rc + length (filter (λ doc, doc_path doc ∉ crp) docs)
  ∧ m' = {| self := self m; disk := disk m;
            trace := deletions crp docs ++ trace m |}.
Proof.
  revert i nd ne rc m.
  induction docs as [|doc rest IH]; intros i nd ne rc m Hrun.
  - simpl in Hrun. unfold run, mret, M_ret in Hrun. simplify_eq.
    cbv zeta. simpl. rewrite !app_nil_r, machine_eta.
    repeat split; [lia].
  - simpl retain_present in Hrun. cbv zeta. unfold retained, deletions in *.
    case_bool_decide as HP.
    + destruct (embs !! i) as [e|] eqn:He; [|done].
      apply IH in Hrun as (-> & -> & Hfst & -> & ->).
      rewrite (drop_S _ _ _ He). simpl zip.
      rewrite !filter_cons_True by done.
      rewrite (filter_cons_False (λ doc, doc_path doc ∉ crp)) by (intros ?; done).
      rewrite !fmap_cons, <- !app_assoc, Hfst. done.
    + rewrite run_print_then in Hrun.
      apply IH in Hrun as (-> & -> & Hfst & -> & ->). simpl self; simpl disk.
      rewrite (filter_cons_False (λ doc, doc_path doc ∈ crp)) by done.
      rewrite (filter_cons_True (λ doc, doc_path doc ∉ crp)) by done.
      simpl. rewrite <- app_assoc. simpl.
      destruct (embs !! i) as [e|] eqn:He.
      * rewrite (drop_S _ _ _ He). simpl zip.
        rewrite filter_cons_False by done.
        repeat split; try done; lia.
      * apply lookup_ge_None in He.
        rewrite (drop_ge embs i) by lia.
        rewrite (drop_ge embs (S i)) in Hfst |- * by lia.
        destruct rest; simpl in *; (repeat split; try done; lia).
Qed.



(** ** The synchronisation, stage by stage *)

Lemma run_add_documents_from_directory (W : World) (directory_path : string)
    (file_extensions : list string) (m : Machine) :
  let directory := of_string directory_path in
  let after_scan :=
    snd (run (scan W directory file_extensions ∅ (fs_rglob W directory)) m) in
  let current_files :=
    collect_files W directory file_extensions ∅ (fs_rglob W directory) in
  run (add_documents_from_directory W directory_path file_extensions) m =
  match current_relative_paths directory current_files with
  | Raise e => (Raise e, after_scan)
  | Ok crp =>
      match run (retain_present crp (embeddings (self after_scan)) 0
                   (documents (self after_scan)) [] [] 0) after_scan with
      | (Raise e, m2) => (Raise e, m2)
      | (Ok (new_documents, new_embeddings, removed_count), m2) =>
          if (0 <? removed_count)%nat then
            (Ok tt,
             saved (log (Print (DeletedTotal removed_count))
                      (with_self
                         {| documents := new_documents;
                            embeddings := new_embeddings;
                            metadata := prune_metadata directory crp
                                          (metadata (self m2)) |} m2)))
          else (Ok tt, saved m2)
      end
  end.
Proof.
  intros directory after_scan current_files.
  unfold add_documents_from_directory. fold directory.
  rewrite run_bind.
  pose proof (scan_outcome W directory file_extensions (fs_rglob W directory) ∅ m)
    as Hscan.
  fold current_files in Hscan. subst after_scan.
  destruct (run (scan W directory file_extensions ∅ (fs_rglob W directory)) m)
    as [o m1]. simpl in Hscan. subst o. simpl snd.
  rewrite run_bind. unfold lift at 1. unfold run at 1.
  destruct (current_relative_paths directory current_files) as [crp|e]; [|done].
  rewrite run_bind. unfold get_self at 1. unfold run at 1.
  rewrite run_bind.
  destruct (run (retain_present crp (embeddings (self m1)) 0
                   (documents (self m1)) [] [] 0) m1)
    as [[[[nd ne] rc]|e] m2]; [|done].
  destruct (0 <? rc)%nat; reflexivity.
Qed.

Lemma sync_aligned (W : World) (directory_path : string)
    (file_extensions : list string) (m : Machine) :
  aligned (self m) →
  aligned (self (snd (run (add_documents_from_directory W directory_path
                             file_extensions) m))).
Proof.
  intros Hal. rewrite run_add_documents_from_directory. cbv zeta.
  set (directory := of_string directory_path).
  pose proof (scan_aligned W directory file_extensions (fs_rglob W directory) ∅ m Hal)
    as Hscan.
  set (m1 := snd (run (scan W directory file_extensions ∅ (fs_rglob W directory)) m))
    in *.
  destruct (current_relative_paths directory _) as [crp|e]; [|done].
  destruct (retain_present_self crp (embeddings (self m1)) (documents (self m1))
              0 [] [] 0 m1) as [Hself _].
  destruct (run (retain_present crp (embeddings (self m1)) 0
                   (documents (self m1)) [] [] 0) m1)
    as [[[[nd ne] rc]|e] m2] eqn:Hrun; simpl in Hself.
  - apply retain_present_result in Hrun as (-> & -> & _ & _ & _).
    destruct (0 <? rc)%nat; simpl; [|by rewrite Hself].
    unfold aligned. simpl. by rewrite !length_fmap.
  - simpl. by rewrite Hself.
Qed.

(** C1: each public operation that changes the store keeps the documents
    and the embeddings at equal length: [add_document], the directory
    synchronisation and [clear_knowledge_base] leave an aligned store
    aligned, when they return and also when they raise; the constructor
    over an empty storage directory and [clear_knowledge_base] produce an
    aligned store from any state. *)
Theorem alignment_invariant (W : World) (m : Machine) :
  aligned (self m) →
  (∀ content, aligned (self (snd (run (add_document W content) m))))
  ∧ (∀ directory_path file_extensions,
       aligned (self (snd (run (add_documents_from_directory W directory_path
                                  file_extensions) m))))
  ∧ aligned (self (snd (run clear_knowledge_base m)))
  ∧ (∀ m0, aligned (self (snd (run clear_knowledge_base m0))))
  ∧ (∀ kb t, aligned (self (snd (run init
       {| self := kb;
          disk := {| documents_file := None; embeddings_file := None;
                     metadata_file := None |};
          trace := t |})))).
Proof.
  intros Hal.
  split; [intros content; by apply add_document_aligned|].
  split; [intros dp exts; by apply sync_aligned|].
  repeat split.
Qed.

(** The two files of [/docs] synchronised into a new store. *)
Lemma alignment_invariant_witness :
  aligned (self fresh_machine)
  ∧ aligned (self (snd (run (add_documents_from_directory world_two_files
                               "/docs" default_extensions) fresh_machine)))
  ∧ fst (run (add_documents_from_directory world_two_files
                "/docs" default_extensions) fresh_machine) = Ok tt
  ∧ length (documents (self (snd (run (add_documents_from_directory
       world_two_files "/docs" default_extensions) fresh_machine)))) = 2.
Proof.
  assert (H0 : aligned (self fresh_machine)) by reflexivity.
  destruct (alignment_invariant world_two_files fresh_machine H0)
    as (_ & Hsync & _).
  split; [exact H0|].
  split; [exact (Hsync "/docs" default_extensions)|].
  split; vm_compute; reflexivity.
Defined.

(** ** A file that fails *)





(** C4 fails on the code: [a.txt] is in the store, it was edited, and the
    embedding service is down. The synchronisation completes, the document
    of [a.txt] holds the new text, its embedding is still the one of the old
    text, and its metadata entry still has the old modification time; a new
    file in the same situation is not added. *)
Example update_replaces_document_before_embedding :
  let before := machine_two_files in
  let after := snd (run (sync world_a_edited_down) before) in
  fst (run (sync world_a_edited_down) before) = Ok tt
  ∧ documents (self before) !! 0
    = Some (make_document "a.txt" "first text of /docs/a.txt")
  ∧ documents (self after) !! 0
    = Some (make_document "a.txt" "second text of /docs/a.txt")
  ∧ embeddings (self after) = embeddings (self before)
  ∧ metadata (self after) = metadata (self before)
  ∧ documents (self after) ≠ documents (self before)
  ∧ documents (self (snd (run (sync world_flaky) fresh_machine))) = [].
Proof.
  cbv zeta. repeat split; try (vm_compute; reflexivity).
  vm_compute. discriminate.
Qed.

(** ** The identity tag *)

Lemma append_nil_l (s : string) : "" +:+ s = s.
Proof. reflexivity. Qed.

Lemma append_cons (c : ascii) (s t : string) :
  String c s +:+ t = String c (s +:+ t).
Proof. reflexivity. Qed.

Lemma prefix_cons_ne (a c : ascii) (s t : string) :
  a ≠ c → String.prefix (String a s) (String c t) = false.
Proof. intros Hne. simpl. by destruct (ascii_dec a c). Qed.

Lemma prefix_cons_eq (a : ascii) (s t : string) :
  String.prefix (String a s) (String a t) = String.prefix s t.
Proof. simpl. by destruct (ascii_dec a a). Qed.

Lemma prefix_nil (s : string) : String.prefix "" s = true.
Proof. by destruct s. Qed.

Lemma split_head_cons (sep : string) (c : ascii) (s : string) :
  PyStr.split_head sep (String c s)
  = if String.prefix sep (String c s) then EmptyString
    else String c (PyStr.split_head sep s).
Proof. reflexivity. Qed.

Lemma replace_from_cons (old new : string) (c : ascii) (s : string) :
  PyStr.replace_from old new 0 (String c s)
  = if String.prefix old (String c s)
    then new +:+ PyStr.replace_from old new (String.length old - 1) s
    else String c (PyStr.replace_from old new 0 s).
Proof. reflexivity. Qed.

Lemma replace_from_skip (old new : string) (k : nat) (c : ascii) (s : string) :
  PyStr.replace_from old new (S k) (String c s) = PyStr.replace_from old new k s.
Proof. reflexivity. Qed.

Lemma split_head_line (rel rest : string) :
  PyStr.has_char PyStr.newline rel = false →
  PyStr.split_head (nl +:+ nl) (rel +:+ nl +:+ nl +:+ rest) = rel.
Proof.
  unfold nl. rewrite !append_cons, !append_nil_l.
  induction rel as [|c rel IH]; intros Hc.
  - rewrite append_nil_l, split_head_cons.
    by rewrite !prefix_cons_eq, prefix_nil.
  - simpl in Hc. apply orb_false_iff in Hc as [Hc1 Hc2].
    apply Ascii.eqb_neq in Hc1.
    rewrite append_cons, split_head_cons.
    rewrite prefix_cons_ne by congruence.
    f_equal. by apply IH.
Qed.

Lemma replace_no_occurrence (old new s : string) :
  PyStr.occurs old s = false → PyStr.replace_from old new 0 s = s.
Proof.
  induction s as [|c s IH]; intros Ho; [done|].
  change (PyStr.occurs old (String c s))
    with (String.prefix old (String c s) || PyStr.occurs old s) in Ho.
  apply orb_false_iff in Ho as [Hp Ho].
  rewrite replace_from_cons, Hp. f_equal. by apply IH.
Qed.

(** The identity of a synchronised document is read back from its tag. *)
Lemma doc_path_make_document (relative_path content : string) :
  tag_safe relative_path = true →
  doc_path (make_document relative_path content) = relative_path.
Proof.
  unfold tag_safe. intros Hsafe.
  apply andb_true_iff in Hsafe as [Hnl Hocc].
  apply negb_true_iff in Hnl, Hocc.
  unfold doc_path, make_document.
  assert (Hhead : PyStr.split_head (nl +:+ nl)
                    (tag +:+ relative_path +:+ nl +:+ nl +:+ content)
                  = tag +:+ relative_path).
  { pose proof (split_head_line relative_path content Hnl) as Hline.
    unfold tag, nl in *. rewrite !append_cons, !append_nil_l in *.
    rewrite !split_head_cons.
    rewrite !prefix_cons_ne by (intros H; discriminate H).
    do 8 f_equal. exact Hline. }
  rewrite Hhead. unfold PyStr.replace.
  unfold tag in *. rewrite !append_cons, !append_nil_l.
  rewrite replace_from_cons.
  rewrite !prefix_cons_eq, prefix_nil.
  rewrite append_nil_l. simpl String.length. simpl Nat.sub.
  rewrite !replace_from_skip.
  by apply replace_no_occurrence.
Qed.

(** ** Locating a document by its identity *)

Lemma find_doc_index_first (relative_path : string) (docs : list string)
    (k j : nat) (doc : string) :
  docs !! j = Some doc →
  doc_path doc = relative_path →
  (∀ j' doc', j' < j → docs !! j' = Some doc' → doc_path doc' ≠ relative_path) →
  find_doc_index relative_path k docs = Some (k + j).
Proof.
  revert k j. induction docs as [|d docs IH]; intros k j Hj Hp Hfirst.
  - by rewrite lookup_nil in Hj.
  - simpl. destruct j as [|j].
    + simpl in Hj. simplify_eq. rewrite String.eqb_refl. f_equal. lia.
    + destruct (String.eqb (doc_path d) relative_path) eqn:Heq.
      * apply String.eqb_eq in Heq. exfalso.
        apply (Hfirst 0 d); [lia|done|done].
      * rewrite (IH (S k) j); [f_equal; lia|done|done|].
        intros j' doc' Hlt Hl. apply (Hfirst (S j') doc'); [lia|done].
Qed.

Lemma find_doc_index_Some (relative_path : string) (docs : list string)
    (k i : nat) :
  find_doc_index relative_path k docs = Some i →
  ∃ j doc, i = k + j ∧ docs !! j = Some doc ∧ doc_path doc = relative_path
    ∧ ∀ j' doc', j' < j → docs !! j' = Some doc' → doc_path doc' ≠ relative_path.
Proof.
  revert k. induction docs as [|d docs IH]; intros k Hf; [done|].
  simpl in Hf. destruct (String.eqb (doc_path d) relative_path) eqn:Heq.
  - apply String.eqb_eq in Heq. injection Hf as <-. exists 0, d.
    split; [lia|]. split; [done|]. split; [done|]. intros j' doc' Hlt. lia.
  - apply IH in Hf as (j & doc & -> & Hl & Hp & Hfirst).
    exists (S j), doc.
    split; [lia|]. split; [done|]. split; [done|].
    intros [|j'] doc' Hlt Hl'; simpl in Hl'.
    + simplify_eq. by apply String.eqb_neq.
    + apply (Hfirst j' doc'); [lia|done].
Qed.

Lemma strip_prefix_app (pre rest : list string) :
  strip_prefix pre (pre ++ rest) = Some rest.
Proof.
  induction pre as [|a pre IH]; simpl; [by destruct rest|].
  by rewrite String.eqb_refl.
Qed.

(** An entry of [directory.rglob] is relative to [directory] by its own
    components. *)
Lemma relative_to_joinpath (directory : Path) (entry : list string) :
  relative_to (joinpath directory entry) directory
  = Some {| anchored := false; parts := entry |}.
Proof.
  unfold relative_to, joinpath. simpl.
  by rewrite Bool.eqb_reflx, strip_prefix_app.
Qed.



(** ** Paths and their strings *)




Lemma file_name_spec (p : string) :
  file_name p = true →
  is_component p = true ∧ PyStr.has_char slash p = false.
Proof.
  unfold file_name. intros H. apply andb_true_iff in H as [H1 H2].
  by apply negb_true_iff in H2.
Qed.


Lemma join_not_anchored (ps : list string) :
  Forall (λ p, file_name p = true) ps → String.prefix "/" (PyStr.join "/" ps) = false.
Proof.
  destruct 1 as [|p ps Hp _]; [done|].
  apply file_name_spec in Hp as [Hc Hs].
  destruct p as [|a p]; [done|].
  simpl in Hs. apply orb_false_iff in Hs as [Ha _].
  apply Ascii.eqb_neq in Ha. unfold slash in Ha.
  destruct ps as [|p' ps].
  - simpl PyStr.join. apply prefix_cons_ne. congruence.
  - change (PyStr.join "/" (String a p :: p' :: ps))
      with (String a (p +:+ "/" +:+ PyStr.join "/" (p' :: ps))).
    apply prefix_cons_ne. congruence.
Qed.





Lemma str_anchored (p : Path) :
  anchored p = true → String.prefix "/" (str p) = true.
Proof.
  destruct p as [a ps]. cbn [anchored]. intros ->. unfold str. cbn [parts anchored].
  destruct ps as [|c ps]; [done|].
  change ("/" +:+ PyStr.join "/" (c :: ps))
    with (String slash (PyStr.join "/" (c :: ps))).
  change "/" with (String slash EmptyString).
  by rewrite prefix_cons_eq, prefix_nil.
Qed.

Lemma absolute_anchored (cwd : list string) (p : Path) :
  anchored (absolute cwd p) = true.
Proof. unfold absolute. by destruct (anchored p) eqn:H. Qed.


(** The relative path of an absolute string exists only for an anchored
    directory. *)
Lemma relative_str_anchored (cwd : list string) (directory p : Path) (r : string) :
  relative_str directory (str (absolute cwd p)) = Some r →
  anchored directory = true.
Proof.
  unfold relative_str, relative_to. simpl.
  rewrite str_anchored by apply absolute_anchored.
  destruct (anchored directory); [done|]. simpl. done.
Qed.


(** ** The set of current files and of their relative paths *)

Lemma elem_of_collect_files (W : World) (directory : Path)
    (file_extensions : list string) (entries : list (list string))
    (current_files : gset string) (a : string) :
  a ∈ collect_files W directory file_extensions current_files entries
  ↔ a ∈ current_files
    ∨ ∃ entry, entry ∈ entries
        ∧ recognised directory file_extensions entry = true
        ∧ a = str (absolute (cwd W) (joinpath directory entry)).
Proof.
  unfold collect_files. revert current_files.
  induction entries as [|entry rest IH]; intros cf; simpl.
  - split; [by left|]. intros [?|(entry & Hin & _)]; [done|].
    by apply elem_of_nil in Hin.
  - rewrite IH. destruct (recognised directory file_extensions entry) eqn:Hrec.
    + rewrite elem_of_union, elem_of_singleton. split.
      * intros [[? | ->] | (e & Hin & Hr & ->)]; [by left| |].
        -- right. exists entry. split; [by left|done].
        -- right. exists e. split; [by right|done].
      * intros [?|(e & Hin & Hr & ->)]; [by left; left|].
        apply elem_of_cons in Hin as [-> | Hin]; [by left; right|].
        right. by exists e.
    + split.
      * intros [?|(e & Hin & Hr & ->)]; [by left|].
        right. exists e. split; [by right|done].
      * intros [?|(e & Hin & Hr & ->)]; [by left|].
        apply elem_of_cons in Hin as [-> | Hin]; [congruence|].
        right. by exists e.
Qed.

(** When the comprehension completes, its set holds the relative path of
    every current file and nothing else. *)
Lemma current_relative_paths_Ok (directory : Path) (current_files crp : gset string) :
  current_relative_paths directory current_files = Ok crp →
  (∀ a, a ∈ current_files →
        ∃ r, relative_str directory a = Some r ∧ r ∈ crp)
  ∧ (∀ r, r ∈ crp →
          ∃ a, a ∈ current_files ∧ relative_str directory a = Some r).
Proof.
  unfold current_relative_paths.
  destruct (mapM (relative_str directory) (elements current_files)) as [l|] eqn:Hm;
    [|done].
  intros [= <-]. apply mapM_Some in Hm. split.
  - intros a Ha. apply elem_of_elements, list_elem_of_lookup in Ha as [i Hi].
    destruct (Forall2_lookup_l _ _ _ _ _ Hm Hi) as (r & Hr & Hrel).
    exists r. split; [done|].
    apply elem_of_list_to_set. by eapply list_elem_of_lookup_2.
  - intros r Hr. apply elem_of_list_to_set, list_elem_of_lookup in Hr as [i Hi].
    destruct (Forall2_lookup_r _ _ _ _ _ Hm Hi) as (a & Ha & Hrel).
    exists a. split; [|done].
    apply elem_of_elements. by eapply list_elem_of_lookup_2.
Qed.



(** ** Removal of the documents of missing files *)



(** The loop changes nothing when no recognised file is reported changed. *)
Lemma scan_unchanged (W : World) (directory : Path) (file_extensions : list string)
    (entries : list (list string)) (current_files : gset string) (m : Machine) :
  (∀ entry, entry ∈ entries →
     recognised directory file_extensions entry = true →
     file_changed W (metadata (self m)) (joinpath directory entry) = false) →
  run (scan W directory file_extensions current_files entries) m
  = (Ok (collect_files W directory file_extensions current_files entries), m).
Proof.
  revert current_files.
  induction entries as [|entry rest IH]; intros cf Hun; [done|].
  rewrite scan_cons, run_visit. cbv zeta.
  destruct (recognised directory file_extensions entry) eqn:Hrec.
  - rewrite (Hun entry) by (done || by left). simpl snd.
    rewrite IH; [|intros e He; apply Hun; by right].
    unfold collect_files. simpl fold_left. by rewrite Hrec.
  - simpl snd. rewrite IH; [|intros e He; apply Hun; by right].
    unfold collect_files. simpl fold_left. by rewrite Hrec.
Qed.



(** ** Synchronising twice *)


Lemma errors_logged_with_self (kb : KnowledgeBase) (m : Machine) :
  errors_logged (with_self kb m) = errors_logged m.
Proof. reflexivity. Qed.














(** * Further properties of the code *)

(** ** A new file *)

Lemma find_doc_index_None (relative_path : string) (docs : list string) (k : nat) :
  (∀ doc, doc ∈ docs → doc_path doc ≠ relative_path) →
  find_doc_index relative_path k docs = None.
Proof.
  revert k. induction docs as [|d docs IH]; intros k Hall; [done|].
  simpl. destruct (String.eqb (doc_path d) relative_path) eqn:Heq.
  - apply String.eqb_eq in Heq. exfalso. apply (Hall d); [by left|done].
  - apply IH. intros doc Hd. apply Hall. by right.
Qed.

(** A recognised file that is reported changed, whose text is read, and
    whose relative path is the identity of no stored document, is added at
    the end of the store: the tagged document and the embedding of the
    tagged document are appended, and the metadata entry of its absolute
    path gets its modification time. *)
Theorem new_file_is_appended (W : World) (directory : Path)
    (file_extensions : list string) (current_files : gset string)
    (entry : list string) (m m_read : Machine) (content : string)
    (embedding : vector) :
  let file_path := joinpath directory entry in
  let abs_path := str (absolute (cwd W) file_path) in
  let relative_path := str {| anchored := false; parts := entry |} in
  let document := make_document relative_path content in
  recognised directory file_extensions entry = true →
  file_changed W (metadata (self m)) file_path = true →
  (∀ doc, doc ∈ documents (self m) → doc_path doc ≠ relative_path) →
  run (read_file_content W file_path) m = (Ok content, m_read) →
  ollama_embeddings W (length (trace m_read)) document = Ok embedding →
  ∃ m',
    run (visit W directory file_extensions current_files entry) m
      = (Ok (current_files ∪ {[abs_path]}), m')
    ∧ documents (self m') = documents (self m) ++ [document]
    ∧ embeddings (self m') = embeddings (self m) ++ [embedding]
    ∧ metadata (self m')
      = <[abs_path := {| mtime := fs_mtime W abs_path |}]> (metadata (self m))
    ∧ disk m' = disk m
    ∧ trace m' = Print (Added relative_path) :: EmbedCall document :: trace m_read.
Proof.
  intros file_path abs_path relative_path document Hrec Hch Hnone Hread Hemb.
  subst file_path abs_path relative_path document.
  destruct (read_file_content_self W (joinpath directory entry) m) as [Hself Hdisk].
  rewrite Hread in Hself, Hdisk. simpl in Hself, Hdisk.
  pose proof (find_doc_index_None _ (documents (self m)) 0 Hnone) as Hfind.
  eexists. split.
  { rewrite run_visit. cbv zeta.
    rewrite Hrec, Hch, run_process_file, Hread, relative_to_joinpath.
    cbv zeta. rewrite Hself, Hfind, Hemb. reflexivity. }
  simpl. by rewrite Hdisk.
Qed.

(** A third file, [c.py], appears in [/docs]. *)
Lemma new_file_is_appended_witness :
  let directory := of_string "/docs" in
  let W := example_world [["c.py"]] (λ _, 100%Z) text_v1 embed_ok in
  let m := machine_two_files in
  let document := make_document "c.py" "first text of /docs/c.py" in
  recognised directory default_extensions ["c.py"] = true
  ∧ file_changed W (metadata (self m)) (joinpath directory ["c.py"]) = true
  ∧ ∃ m', run (visit W directory default_extensions ∅ ["c.py"]) m
          = (Ok (∅ ∪ {["/docs/c.py"]}), m')
      ∧ documents (self m') = documents (self m) ++ [document]
      ∧ embeddings (self m') = embeddings (self m) ++ [[38; 1]%Z].
Proof.
  intros directory W m document.
  assert (H1 : recognised directory default_extensions ["c.py"] = true)
    by (vm_compute; reflexivity).
  assert (H2 : file_changed W (metadata (self m)) (joinpath directory ["c.py"]) = true)
    by (vm_compute; reflexivity).
  split; [exact H1|]. split; [exact H2|].
  destruct (new_file_is_appended W directory default_extensions ∅ ["c.py"] m
              (log (ReadCall "/docs/c.py") m) "first text of /docs/c.py"
              [38; 1]%Z H1 H2)
    as (m' & Hrun & Hdocs & Hembs & _).
  - intros doc Hd Heq. vm_compute in Hd.
    apply elem_of_cons in Hd as [-> | Hd];
      [vm_compute in Heq; discriminate|].
    apply elem_of_cons in Hd as [-> | Hd];
      [vm_compute in Heq; discriminate|].
    by apply elem_of_nil in Hd.
  - vm_compute; reflexivity.
  - vm_compute; reflexivity.
  - exists m'. split; [exact Hrun|]. split; [exact Hdocs|exact Hembs].
Defined.

(** ** What reaches the storage directory *)

Lemma process_file_disk (W : World) (directory file_path : Path)
    (abs_path : string) (m : Machine) :
  disk (snd (run (process_file W directory file_path abs_path) m)) = disk m.
Proof.
  rewrite run_process_file.
  destruct (read_file_content_self W file_path m) as [_ Hdisk].
  destruct (run (read_file_content W file_path) m) as [[content|e] m1];
    simpl in Hdisk; [|done].
  destruct (relative_to file_path directory) as [r|]; [|done].
  cbv zeta.
  destruct (find_doc_index (str r) 0 (documents (self m1))) as [i|].
  - destruct (ollama_embeddings W (length (trace m1)) content); [|done].
    by case_bool_decide.
  - by destruct (ollama_embeddings W (length (trace m1)) _).
Qed.

Lemma visit_disk (W : World) (directory : Path) (file_extensions : list string)
    (current_files : gset string) (entry : list string) (m : Machine) :
  disk (snd (run (visit W directory file_extensions current_files entry) m)) = disk m.
Proof.
  rewrite run_visit. cbv zeta.
  destruct (recognised directory file_extensions entry); [|done].
  destruct (file_changed W (metadata (self m)) _); [|done].
  pose proof (process_file_disk W directory (joinpath directory entry)
                (str (absolute (cwd W) (joinpath directory entry))) m) as H.
  by destruct (run (process_file W directory _ _) m) as [[[]|e] m'].
Qed.

Lemma scan_disk (W : World) (directory : Path) (file_extensions : list string)
    (entries : list (list string)) (current_files : gset string) (m : Machine) :
  disk (snd (run (scan W directory file_extensions current_files entries) m)) = disk m.
Proof.
  apply (scan_invariant W directory file_extensions (λ x, disk x = disk m)); [|done].
  intros cf entry m0 H0. by rewrite visit_disk.
Qed.

(** When the synchronisation returns, the machine is a saved one. *)
Lemma sync_returns_saved (W : World) (directory_path : string)
    (file_extensions : list string) (m m' : Machine) :
  run (add_documents_from_directory W directory_path file_extensions) m
    = (Ok tt, m') →
  ∃ x, m' = saved x.
Proof.
  rewrite run_add_documents_from_directory. cbv zeta.
  destruct (current_relative_paths _ _) as [crp|e]; [|done].
  destruct (run (retain_present crp _ 0 _ [] [] 0) _)
    as [[[[nd ne] rc]|e] m2]; [|done].
  destruct (0 <? rc)%nat; intros [= <-]; eauto.
Qed.

(** A synchronisation that returns has saved the store it leaves: a new
    instance constructed over the same storage directory holds the same
    documents, embeddings and metadata. *)
Theorem sync_then_restart_reloads_store (W : World) (directory_path : string)
    (file_extensions : list string) (m m' : Machine) (kb0 : KnowledgeBase)
    (t : list event) :
  run (add_documents_from_directory W directory_path file_extensions) m
    = (Ok tt, m') →
  run init {| self := kb0; disk := disk m'; trace := t |}
  = (Ok tt, {| self := self m'; disk := disk m'; trace := t |}).
Proof.
  intros Hrun. destruct (sync_returns_saved _ _ _ _ _ Hrun) as [x ->].
  rewrite run_init. simpl. by rewrite kb_eta.
Qed.

Lemma sync_then_restart_reloads_store_witness :
  run (add_documents_from_directory world_two_files "/docs" default_extensions)
      fresh_machine = (Ok tt, machine_two_files)
  ∧ run init {| self := empty_kb; disk := disk machine_two_files; trace := [] |}
    = (Ok tt, {| self := self machine_two_files; disk := disk machine_two_files;
                 trace := [] |}).
Proof.
  assert (H1 : run (add_documents_from_directory world_two_files "/docs"
                      default_extensions) fresh_machine
               = (Ok tt, machine_two_files)) by (vm_compute; reflexivity).
  split; [exact H1|].
  exact (sync_then_restart_reloads_store world_two_files "/docs"
           default_extensions fresh_machine machine_two_files empty_kb [] H1).
Defined.

(** [add_document] and [search] write nothing to the storage directory: a
    document added directly to a saved store is in memory only, and a new
    instance constructed afterwards loads the store without it. *)
Theorem add_document_is_not_persisted (W : World) (content query : string)
    (top_k : Z) (m : Machine) (kb0 : KnowledgeBase) (t : list event) :
  disk (snd (run (add_document W content) m)) = disk m
  ∧ disk (snd (run (search W query top_k) m)) = disk m
  ∧ run init {| self := kb0;
                disk := disk (snd (run (add_document W content) (saved m)));
                trace := t |}
    = (Ok tt, {| self := self m; disk := disk (saved m); trace := t |}).
Proof.
  assert (Hadd : ∀ m0, disk (snd (run (add_document W content) m0)) = disk m0).
  { intros m0. rewrite run_add_document.
    by destruct (ollama_embeddings W (length (trace m0)) content). }
  split; [apply Hadd|]. split.
  - unfold run, search, mbind, M_bind, ollama_embed, get_self, lift. simpl.
    destruct (ollama_embeddings W (length (trace m)) query) as [q|]; [|done].
    simpl. by destruct (similarities_of q (embeddings (self m))) as [sims|].
  - rewrite Hadd, run_init. simpl. by rewrite kb_eta.
Qed.

(** ** A relative directory *)

(** The synchronisation of a directory given by a relative path raises
    [ValueError] as soon as the directory holds one recognised file: the
    loop over the files has run, and nothing is saved. *)
Theorem relative_directory_sync_raises (W : World) (directory_path : string)
    (file_extensions : list string) (m : Machine) (entry : list string) :
  let directory := of_string directory_path in
  let after_scan :=
    snd (run (scan W directory file_extensions ∅ (fs_rglob W directory)) m) in
  anchored directory = false →
  entry ∈ fs_rglob W directory →
  recognised directory file_extensions entry = true →
  run (add_documents_from_directory W directory_path file_extensions) m
    = (Raise ValueError, after_scan)
  ∧ disk after_scan = disk m.
Proof.
  intros directory after_scan Hrel Hin Hrec.
  split; [|apply scan_disk].
  rewrite run_add_documents_from_directory. cbv zeta.
  fold directory. fold after_scan.
  set (cf := collect_files W directory file_extensions ∅ (fs_rglob W directory)).
  destruct (current_relative_paths directory cf) as [crp|e] eqn:Hcrp.
  - exfalso. destruct (current_relative_paths_Ok _ _ _ Hcrp) as [Hfwd _].
    destruct (Hfwd (str (absolute (cwd W) (joinpath directory entry))))
      as (r & Hr & _).
    { apply elem_of_collect_files. right. by exists entry. }
    apply relative_str_anchored in Hr. congruence.
  - unfold current_relative_paths in Hcrp.
    destruct (mapM _ _); [done|]. by injection Hcrp as <-.
Qed.

(** The two files, with the directory named [docs] instead of [/docs]. *)
Lemma relative_directory_sync_raises_witness :
  anchored (of_string "docs") = false
  ∧ ["a.txt"] ∈ fs_rglob world_two_files (of_string "docs")
  ∧ recognised (of_string "docs") default_extensions ["a.txt"] = true
  ∧ run (add_documents_from_directory world_two_files "docs"
           default_extensions) fresh_machine
    = (Raise ValueError,
       snd (run (scan world_two_files (of_string "docs") default_extensions ∅
                   (fs_rglob world_two_files (of_string "docs"))) fresh_machine)).
Proof.
  assert (H1 : anchored (of_string "docs") = false) by reflexivity.
  assert (H2 : ["a.txt"] ∈ fs_rglob world_two_files (of_string "docs"))
    by (left).
  assert (H3 : recognised (of_string "docs") default_extensions ["a.txt"] = true)
    by (vm_compute; reflexivity).
  split; [exact H1|]. split; [exact H2|]. split; [exact H3|].
  exact (proj1 (relative_directory_sync_raises world_two_files "docs"
                  default_extensions fresh_machine ["a.txt"] H1 H2 H3)).
Defined.

(** ** A directory without recognised files *)

Lemma collect_files_none (W : World) (directory : Path)
    (file_extensions : list string) (entries : list (list string))
    (current_files : gset string) :
  (∀ entry, entry ∈ entries →
     recognised directory file_extensions entry = false) →
  collect_files W directory file_extensions current_files entries = current_files.
Proof.
  unfold collect_files. revert current_files.
  induction entries as [|entry rest IH]; intros cf Hnone; [done|].
  simpl. rewrite (Hnone entry) by (by left).
  apply IH. intros e He. apply Hnone. by right.
Qed.

Lemma retain_present_none (crp : gset string) (embs : list vector)
    (docs : list string) (i : nat) (nd : list string) (ne : list vector)
    (rc : nat) (m : Machine) :
  (∀ doc, doc ∈ docs → doc_path doc ∉ crp) →
  ∃ m', run (retain_present crp embs i docs nd ne rc) m
        = (Ok (nd, ne, rc + length docs), m')
    ∧ self m' = self m ∧ disk m' = disk m.
Proof.
  revert i rc m. induction docs as [|doc rest IH]; intros i rc m Hnone.
  - exists m. simpl. rewrite Nat.add_0_r. done.
  - simpl retain_present. rewrite bool_decide_eq_false_2 by (apply Hnone; by left).
    rewrite run_print_then.
    destruct (IH (S i) (S rc) (log (Print (Deleted (doc_path doc))) m))
      as (m' & Hrun & Hs & Hd).
    { intros d Hd. apply Hnone. by right. }
    exists m'. rewrite Hrun. simpl. split; [do 3 f_equal; lia|done].
Qed.

Lemma prune_metadata_empty (directory : Path) (md : gmap string FileMeta) :
  prune_metadata directory ∅ md = ∅.
Proof.
  apply map_empty. intros key. unfold prune_metadata.
  apply map_lookup_filter_None. right. intros meta _. simpl.
  unfold keep_metadata. destruct (relative_str directory key) as [r|]; [|done].
  rewrite bool_decide_eq_false_2; [done|]. apply not_elem_of_empty.
Qed.

Lemma current_relative_paths_empty (directory : Path) :
  current_relative_paths directory ∅ = Ok ∅.
Proof. unfold current_relative_paths. by rewrite elements_empty. Qed.

(** When the directory holds no recognised file, the synchronisation
    completes and removes every document: the store it leaves has no
    document, and when there was one, no embedding and no metadata either.
    An empty store is left as it is, metadata included. *)
Theorem sync_without_recognised_files_empties_store (W : World)
    (directory_path : string) (file_extensions : list string) (m : Machine) :
  (∀ entry, entry ∈ fs_rglob W (of_string directory_path) →
     recognised (of_string directory_path) file_extensions entry = false) →
  ∃ m',
    run (add_documents_from_directory W directory_path file_extensions) m
      = (Ok tt, m')
    ∧ documents (self m') = []
    ∧ (documents (self m) ≠ [] →
       embeddings (self m') = [] ∧ metadata (self m') = ∅)
    ∧ (documents (self m) = [] → self m' = self m).
Proof.
  intros Hnone.
  rewrite run_add_documents_from_directory. cbv zeta.
  set (directory := of_string directory_path) in *.
  rewrite (scan_unchanged W directory file_extensions (fs_rglob W directory) ∅ m).
  2:{ intros entry Hin Hrec. rewrite (Hnone entry Hin) in Hrec. done. }
  simpl snd. rewrite collect_files_none by done.
  rewrite current_relative_paths_empty.
  destruct (retain_present_none ∅ (embeddings (self m))
              (documents (self m)) 0 [] [] 0 m) as (m2 & Hret & Hs & Hd).
  { intros doc _. apply not_elem_of_empty. }
  rewrite Hret. simpl Nat.add.
  destruct (documents (self m)) as [|d docs] eqn:Hdocs.
  - simpl. exists (saved m2). split; [done|]. simpl. rewrite Hs.
    split; [done|]. split; [done|]. done.
  - simpl. eexists. split; [reflexivity|]. simpl.
    split; [done|]. split; [|done]. intros _. split; [done|].
    apply prune_metadata_empty.
Qed.

(** The two documents of [/docs] and a directory [/empty] without files. *)
Lemma sync_without_recognised_files_empties_store_witness :
  let W := example_world [] (λ _, 0%Z) text_v1 embed_ok in
  (∀ entry, entry ∈ fs_rglob W (of_string "/empty") →
     recognised (of_string "/empty") default_extensions entry = false)
  ∧ length (documents (self machine_two_files)) = 2
  ∧ ∃ m', run (add_documents_from_directory W "/empty" default_extensions)
              machine_two_files = (Ok tt, m')
      ∧ documents (self m') = [].
Proof.
  intros W.
  assert (H1 : ∀ entry, entry ∈ fs_rglob W (of_string "/empty") →
            recognised (of_string "/empty") default_extensions entry = false).
  { intros entry Hin. by apply elem_of_nil in Hin. }
  split; [exact H1|]. split; [reflexivity|].
  destruct (sync_without_recognised_files_empties_store W "/empty"
              default_extensions machine_two_files H1) as (m' & Hrun & Hd & _).
  exists m'. split; [exact Hrun|exact Hd].
Defined.

(** ** What stays in the store *)



(** ** Search: other values of [top_k], vectors of another length *)

Lemma slice_from_positive {A} (s : Z) (a : list A) :
  (0 <= s)%Z → slice_from s a = drop (Z.to_nat s) a.
Proof.
  intros Hs. unfold slice_from.
  destruct (s <? 0)%Z eqn:Hneg; [apply Z.ltb_lt in Hneg; lia|].
  destruct (decide (s <= Z.of_nat (length a))%Z) as [Hle|Hgt].
  - by rewrite Z.min_l.
  - rewrite Z.min_r by lia. rewrite Nat2Z.id.
    rewrite drop_all. symmetry. apply drop_ge. lia.
Qed.

(** The indices that are left when the [d] lowest scores are dropped. *)
Lemma top_selection_drop (argsort : list Z → list nat) (sims : list Z) (d : nat) :
  argsort_ok argsort →
  top_selection sims (length sims - d) (rev (drop d (argsort sims))).
Proof.
  intros Hok.
  pose proof (argsort_ok_length argsort sims Hok) as Hlen.
  pose proof (argsort_ok_NoDup argsort sims Hok) as Hnd.
  destruct (Hok sims) as [Hperm Hsorted].
  assert (Hin : ∀ i, i ∈ rev (drop d (argsort sims)) ↔ i ∈ drop d (argsort sims)).
  { intros i. by rewrite !list_elem_of_In, <- in_rev. }
  repeat split.
  - rewrite length_rev, length_drop. lia.
  - apply NoDup_ListNoDup, NoDup_rev, NoDup_ListNoDup.
    rewrite <- (take_drop d (argsort sims)) in Hnd.
    by apply NoDup_app in Hnd as (_ & _ & ?).
  - intros i Hi. apply Hin in Hi.
    eapply argsort_ok_bound; [done|]. by eapply subseteq_drop.
  - apply (StronglySorted_rev (λ i j, (score sims i <= score sims j)%Z)).
    by apply StronglySorted_drop.
  - intros i j Hi Hj Hnj. apply Hin in Hi.
    assert (Hjall : j ∈ argsort sims).
    { rewrite Hperm. apply list_elem_of_In, in_seq. lia. }
    rewrite <- (take_drop d (argsort sims)) in Hjall, Hsorted.
    apply elem_of_app in Hjall as [Hjl|Hjr].
    + by eapply (StronglySorted_app_cross _ _ _ j i) in Hsorted.
    + exfalso. apply Hnj. by apply Hin.
Qed.

(** With a negative [top_k] the slice [[-top_k:]] starts at index
    [|top_k|] of the ascending order: [search] leaves out the [|top_k|]
    documents of lowest score and returns all the others, in descending
    order of score; nothing when the store has no more than [|top_k|]
    documents. *)
Theorem search_negative_top_k (W : World) (query : string) (top_k : Z)
    (m : Machine) (q : vector) (sims : list Z) :
  argsort_ok (np_argsort W) →
  aligned (self m) →
  ollama_embeddings W (length (trace m)) query = Ok q →
  similarities_of q (embeddings (self m)) = Ok sims →
  (top_k < 0)%Z →
  ∃ top_indices : list nat,
    fst (run (search W query top_k) m)
      = Ok (map (hit_at (documents (self m)) sims) top_indices)
    ∧ length top_indices
      = length (documents (self m)) - Z.to_nat (- top_k)
    ∧ top_selection sims (length sims - Z.to_nat (- top_k)) top_indices
    ∧ descending (map (hit_at (documents (self m)) sims) top_indices).
Proof.
  intros Hok Hal Hq Hs Hk.
  destruct (similarities_of_lookup _ _ _ Hs) as [Hlen _].
  unfold aligned in Hal. rewrite <- Hal in Hlen.
  pose proof (top_selection_drop (np_argsort W) sims (Z.to_nat (- top_k)) Hok)
    as Hsel.
  exists (rev (drop (Z.to_nat (- top_k)) (np_argsort W sims))).
  rewrite (run_search W query top_k m q sims Hq Hs). simpl.
  rewrite slice_from_positive by lia.
  split.
  { apply results_of_ok. apply Forall_forall. intros i Hi.
    destruct Hsel as (_ & _ & Hb & _). specialize (Hb i Hi). lia. }
  split.
  { destruct Hsel as (Hl & _). rewrite Hl, Hlen. lia. }
  split; [done|].
  apply descending_hits. by destruct Hsel as (_ & _ & _ & ? & _).
Qed.

(** The three scores with [top_k = -1]: the lowest, C, is left out. *)
Lemma search_negative_top_k_witness :
  argsort_ok (np_argsort world_search)
  ∧ aligned (self machine_scores)
  ∧ (-1 < 0)%Z
  ∧ fst (run (search world_search "q" (-1)) machine_scores)
    = Ok [{| content := "B"; similarity := 95 |};
          {| content := "A"; similarity := 90 |}]
  ∧ ∃ top_indices : list nat,
      fst (run (search world_search "q" (-1)) machine_scores)
        = Ok (map (hit_at ["A"; "B"; "C"] [90; 95; 20]%Z) top_indices)
      ∧ length top_indices = 2.
Proof.
  split; [apply stable_argsort_ok|].
  split; [reflexivity|].
  split; [lia|].
  split; [reflexivity|].
  destruct (search_negative_top_k world_search "q" (-1) machine_scores [1%Z]
              [90; 95; 20]%Z) as (idxs & Hrun & Hlen & _).
  - apply stable_argsort_ok.
  - reflexivity.
  - reflexivity.
  - reflexivity.
  - lia.
  - exists idxs. split; [exact Hrun|exact Hlen].
Defined.

Lemma np_dot_outcome (a b : vector) :
  (∃ s, np_dot a b = Ok s ∧ length a = length b)
  ∨ (np_dot a b = Raise ValueError ∧ length a ≠ length b).
Proof.
  revert b. induction a as [|x a IH]; intros [|y b]; simpl.
  - left. eauto.
  - right. done.
  - right. done.
  - destruct (IH b) as [(s & -> & Hl)|[-> Hl]]; simpl.
    + left. eexists. split; [done|]. by rewrite Hl.
    + right. split; [done|]. congruence.
Qed.

Lemma similarities_of_mismatch (q : vector) (embs : list vector) (e : vector) :
  e ∈ embs → length e ≠ length q →
  similarities_of q embs = Raise ValueError.
Proof.
  induction embs as [|e0 embs IH]; intros Hin Hne.
  - by apply elem_of_nil in Hin.
  - simpl. destruct (np_dot_outcome q e0) as [(s & -> & Hl)|[-> _]]; [|done].
    simpl. apply elem_of_cons in Hin as [-> | Hin]; [congruence|].
    by rewrite IH.
Qed.

(** When one stored vector has not the length of the query embedding,
    [np.dot] raises and so does [search], with [ValueError], whatever
    [top_k]; the store is as it was. *)
Theorem search_dimension_mismatch_raises (W : World) (query : string)
    (top_k : Z) (m : Machine) (q e : vector) :
  ollama_embeddings W (length (trace m)) query = Ok q →
  e ∈ embeddings (self m) →
  length e ≠ length q →
  run (search W query top_k) m = (Raise ValueError, log (EmbedCall query) m).
Proof.
  intros Hq Hin Hne.
  unfold run, search, mbind, M_bind, ollama_embed, get_self, lift. simpl.
  rewrite Hq. simpl. by rewrite (similarities_of_mismatch q _ e Hin Hne).
Qed.

(** Stored vectors of one component and a query embedding of two. *)
Lemma search_dimension_mismatch_raises_witness :
  ollama_embeddings world_search_wide (length (trace machine_scores)) "q"
    = Ok [1%Z; 1%Z]
  ∧ [90%Z] ∈ embeddings (self machine_scores)
  ∧ length [90%Z] ≠ length [1%Z; 1%Z]
  ∧ run (search world_search_wide "q" 3) machine_scores
    = (Raise ValueError, log (EmbedCall "q") machine_scores).
Proof.
  assert (H1 : ollama_embeddings world_search_wide
                 (length (trace machine_scores)) "q" = Ok [1%Z; 1%Z])
    by reflexivity.
  assert (H2 : [90%Z] ∈ embeddings (self machine_scores)) by (left).
  assert (H3 : length [90%Z] ≠ length [1%Z; 1%Z]) by (simpl; lia).
  split; [exact H1|]. split; [exact H2|]. split; [exact H3|].
  exact (search_dimension_mismatch_raises world_search_wide "q" 3
           machine_scores [1%Z; 1%Z] [90%Z] H1 H2 H3).
Defined.

(** ** A file of an unknown format *)

Lemma read_file_content_unsupported (W : World) (file_path : Path) (m : Machine) :
  PyStr.lower (suffix file_path) ∉ default_extensions →
  run (read_file_content W file_path) m = (Raise ValueError, m).
Proof.
  intros Hno. unfold default_extensions in Hno.
  unfold run, read_file_content. cbv zeta.
  rewrite bool_decide_eq_false_2.
  2:{ intros Hin. apply Hno.
      apply elem_of_cons in Hin as [-> | Hin]; [set_solver|].
      apply elem_of_cons in Hin as [-> | Hin]; [set_solver|].
      apply elem_of_cons in Hin as [-> | Hin]; [set_solver|].
      by apply elem_of_nil in Hin. }
  destruct (String.eqb _ ".docx") eqn:H1.
  { apply String.eqb_eq in H1. exfalso. apply Hno. rewrite H1. set_solver. }
  destruct (String.eqb _ ".pdf") eqn:H2.
  { apply String.eqb_eq in H2. exfalso. apply Hno. rewrite H2. set_solver. }
  done.
Qed.

(** A file recognised through an extension given by the caller, for which
    [read_file_content] has no reader, is never read and never added: every
    synchronisation that finds it changed prints the [ValueError] and
    leaves the store, the metadata and the answer of the change detector
    for this file as they were. *)
Theorem unsupported_suffix_is_skipped (W : World) (directory : Path)
    (file_extensions : list string) (current_files : gset string)
    (entry : list string) (m : Machine) :
  let file_path := joinpath directory entry in
  let abs_path := str (absolute (cwd W) file_path) in
  recognised directory file_extensions entry = true →
  PyStr.lower (suffix file_path) ∉ default_extensions →
  file_changed W (metadata (self m)) file_path = true →
  run (visit W directory file_extensions current_files entry) m
    = (Ok (current_files ∪ {[abs_path]}),
       log (Print (ProcessingError (str file_path) ValueError)) m)
  ∧ file_changed W
      (metadata (self (snd (run (visit W directory file_extensions
                                   current_files entry) m)))) file_path = true.
Proof.
  intros file_path abs_path Hrec Hno Hch.
  assert (Hv : run (visit W directory file_extensions current_files entry) m
               = (Ok (current_files ∪ {[abs_path]}),
                  log (Print (ProcessingError (str file_path) ValueError)) m)).
  { rewrite run_visit. cbv zeta. fold file_path. fold abs_path.
    rewrite Hrec, Hch, run_process_file.
    by rewrite read_file_content_unsupported. }
  split; [done|]. by rewrite Hv.
Qed.

(** [/data/table.csv], with [.csv] among the extensions asked for. *)
Lemma unsupported_suffix_is_skipped_witness :
  let directory := of_string "/data" in
  recognised directory [".csv"] ["table.csv"] = true
  ∧ (PyStr.lower (suffix (joinpath directory ["table.csv"])) ∉ default_extensions)
  ∧ file_changed world_csv (metadata (self fresh_machine))
      (joinpath directory ["table.csv"]) = true
  ∧ run (visit world_csv directory [".csv"] ∅ ["table.csv"]) fresh_machine
    = (Ok (∅ ∪ {[str (absolute (cwd world_csv)
                         (joinpath directory ["table.csv"]))]}),
       log (Print (ProcessingError (str (joinpath directory ["table.csv"]))
                     ValueError)) fresh_machine).
Proof.
  intros directory.
  assert (H1 : recognised directory [".csv"] ["table.csv"] = true)
    by (vm_compute; reflexivity).
  assert (H2 : PyStr.lower (suffix (joinpath directory ["table.csv"]))
               ∉ default_extensions).
  { intros Hin. vm_compute in Hin.
    repeat ((apply elem_of_cons in Hin as [Hin | Hin]); [discriminate Hin|]).
    by apply elem_of_nil in Hin. }
  assert (H3 : file_changed world_csv (metadata (self fresh_machine))
                 (joinpath directory ["table.csv"]) = true)
    by (vm_compute; reflexivity).
  split; [exact H1|]. split; [exact H2|]. split; [exact H3|].
  exact (proj1 (unsupported_suffix_is_skipped world_csv directory [".csv"] ∅
                  ["table.csv"] fresh_machine H1 H2 H3)).
Defined.

(** ** The reset *)

(** [clear_knowledge_base] leaves nothing behind, whatever the state: the
    store is empty, the three files are gone, so that a new instance starts
    empty; the change detector reports every file changed, and [search]
    returns no hit. *)
Theorem clear_then_restart_is_empty (W : World) (m : Machine)
    (kb0 : KnowledgeBase) (t : list event) :
  let m' := snd (run clear_knowledge_base m) in
  fst (run clear_knowledge_base m) = Ok tt
  ∧ self m' = empty_kb
  ∧ disk m' = {| documents_file := None; embeddings_file := None;
                 metadata_file := None |}
  ∧ run init {| self := kb0; disk := disk m'; trace := t |}
    = (Ok tt, {| self := empty_kb; disk := disk m'; trace := t |})
  ∧ (∀ file_path, file_changed W (metadata (self m')) file_path = true)
  ∧ (∀ query top_k q,
       argsort_ok (np_argsort W) →
       ollama_embeddings W (length (trace m')) query = Ok q →
       fst (run (search W query top_k) m') = Ok []).
Proof.
  cbv zeta. split; [done|]. split; [done|]. split; [done|]. split; [done|].
  split; [done|].
  intros query top_k q Hok Hq.
  rewrite (run_search W query top_k _ q [] Hq eq_refl). simpl.
  assert (Hnil : np_argsort W [] = []).
  { destruct (Hok []) as [Hp _]. simpl in Hp. by apply Permutation_nil_r in Hp. }
  rewrite Hnil. unfold slice_from. by rewrite drop_nil.
Qed.

(** ** The identity tag, there and back *)

Lemma string_length_append (s t : string) :
  String.length (s +:+ t) = String.length s + String.length t.
Proof.
  induction s as [|c s IH]; [done|].
  rewrite append_cons. simpl. by rewrite IH.
Qed.

Lemma string_append_assoc (s t u : string) :
  (s +:+ t) +:+ u = s +:+ t +:+ u.
Proof.
  induction s as [|c s IH]; [done|].
  rewrite !append_cons. by rewrite IH.
Qed.

Lemma has_char_append (c : ascii) (s t : string) :
  PyStr.has_char c (s +:+ t) = PyStr.has_char c s || PyStr.has_char c t.
Proof.
  induction s as [|a s IH]; [done|].
  rewrite append_cons. simpl. rewrite IH. by rewrite orb_assoc.
Qed.

(** The tag written by the synchronisation is read back: for a relative
    path without line break and without the tag text, the identity parsed
    from the document is the relative path, so that the document appended
    for a new file is the one the next update of this file finds, at the
    index where it was appended. *)
Theorem identity_tag_roundtrip (relative_path content : string)
    (docs : list string) :
  tag_safe relative_path = true →
  doc_path (make_document relative_path content) = relative_path
  ∧ ((∀ doc, doc ∈ docs → doc_path doc ≠ relative_path) →
     find_doc_index relative_path 0
       (docs ++ [make_document relative_path content]) = Some (length docs)).
Proof.
  intros Hsafe.
  pose proof (doc_path_make_document relative_path content Hsafe) as Hpath.
  split; [done|]. intros Hnone.
  apply (find_doc_index_first relative_path _ 0 (length docs)
           (make_document relative_path content)).
  - by rewrite lookup_app_r, Nat.sub_diag.
  - done.
  - intros j doc Hj Hl. rewrite lookup_app_l in Hl by done.
    apply Hnone. by eapply list_elem_of_lookup_2.
Qed.

Lemma identity_tag_roundtrip_witness :
  tag_safe "notes/a.txt" = true
  ∧ doc_path (make_document "notes/a.txt" "some text") = "notes/a.txt".
Proof.
  assert (H : tag_safe "notes/a.txt" = true) by (vm_compute; reflexivity).
  split; [exact H|].
  exact (proj1 (identity_tag_roundtrip "notes/a.txt" "some text" [] H)).
Defined.

(** The tag is not read back for every path: when the relative path of a
    file begins with the tag text, the identity parsed from its document is
    the path without it, which is another path; the document of such a file
    is not found under its relative path. *)
Theorem identity_tag_prefix_is_lost (r content : string) :
  tag_safe r = true →
  doc_path (make_document (tag +:+ r) content) = r
  ∧ r ≠ tag +:+ r
  ∧ find_doc_index (tag +:+ r) 0 [make_document (tag +:+ r) content] = None.
Proof.
  unfold tag_safe. intros Hsafe.
  apply andb_true_iff in Hsafe as [Hnl Hocc].
  apply negb_true_iff in Hnl, Hocc.
  assert (Hne : r ≠ tag +:+ r).
  { intros Heq. apply (f_equal String.length) in Heq.
    rewrite string_length_append in Heq. simpl in Heq. lia. }
  assert (Hpath : doc_path (make_document (tag +:+ r) content) = r).
  { unfold doc_path, make_document.
    assert (Hnl2 : PyStr.has_char PyStr.newline (tag +:+ tag +:+ r) = false).
    { rewrite !has_char_append, Hnl. reflexivity. }
    assert (Hhead : PyStr.split_head (nl +:+ nl)
                      (tag +:+ (tag +:+ r) +:+ nl +:+ nl +:+ content)
                    = tag +:+ tag +:+ r).
    { etrans; [|apply (split_head_line (tag +:+ tag +:+ r) content Hnl2)].
      f_equal; by rewrite ?string_append_assoc. }
    rewrite Hhead. unfold PyStr.replace.
    unfold tag in *. rewrite !append_cons, !append_nil_l.
    rewrite replace_from_cons.
    rewrite !prefix_cons_eq, prefix_nil.
    rewrite append_nil_l. simpl String.length. simpl Nat.sub.
    rewrite !replace_from_skip.
    rewrite replace_from_cons.
    rewrite !prefix_cons_eq, prefix_nil.
    rewrite append_nil_l. simpl String.length. simpl Nat.sub.
    rewrite !replace_from_skip.
    by apply replace_no_occurrence. }
  split; [done|]. split; [done|].
  simpl. rewrite Hpath.
  destruct (String.eqb r (tag +:+ r)) eqn:Heq; [|done].
  by apply String.eqb_eq in Heq.
Qed.

Lemma identity_tag_prefix_is_lost_witness :
  tag_safe "a.txt" = true
  ∧ doc_path (make_document (tag +:+ "a.txt") "some text") = "a.txt".
Proof.
  assert (H : tag_safe "a.txt" = true) by (vm_compute; reflexivity).
  split; [exact H|].
  exact (proj1 (identity_tag_prefix_is_lost "a.txt" "some text" H)).
Defined.

(** ** Questions *)

Lemma run_query (W : World) (chat : AnswerService) (question : string)
    (m : Machine) :
  run (query W chat question) m =
  match run (search W question 3) m with
  | (Ok hits, m1) =>
      (first_choice (chat (length (trace m1))
                       (prompt_template (PyStr.join nl (map content hits)) question)),
       m1)
  | (Raise e, m1) => (Raise e, m1)
  end.
Proof.
  unfold query. rewrite run_bind.
  destruct (run (search W question 3) m) as [[hits|e] m1]; [|done].
  cbv zeta. rewrite run_bind. unfold post_chat at 1. unfold run at 1.
  by destruct (chat (length (trace m1)) _) as [[|a l]|e].
Qed.

(** [query] asks the answer service once, after the embedding call, with
    the question and, as context, the contents of the three documents of
    highest score (all of them when there are fewer), in descending order
    of score, one per line; its result is the first choice of the reply,
    as it is. With an empty store the context is empty and the service is
    asked all the same. The store is not changed. *)
Theorem query_context_is_top_three (W : World) (chat : AnswerService)
    (question : string) (m : Machine) (q : vector) (sims : list Z) :
  argsort_ok (np_argsort W) →
  aligned (self m) →
  ollama_embeddings W (length (trace m)) question = Ok q →
  similarities_of q (embeddings (self m)) = Ok sims →
  ∃ top_indices : list nat,
    top_selection sims 3 top_indices
    ∧ run (query W chat question) m
      = (first_choice
           (chat (S (length (trace m)))
              (prompt_template
                 (PyStr.join nl
                    (map (λ i, nth i (documents (self m)) EmptyString) top_indices))
                 question)),
         log (EmbedCall question) m)
    ∧ (documents (self m) = [] → top_indices = []).
Proof.
  intros Hok Hal Hq Hs.
  destruct (similarities_of_lookup _ _ _ Hs) as [Hlen _].
  unfold aligned in Hal. rewrite <- Hal in Hlen.
  pose proof (top_indices_spec (np_argsort W) sims 3 Hok) as Hsel.
  specialize (Hsel ltac:(lia)).
  exists (rev (slice_from (- 3) (np_argsort W sims))).
  split; [exact Hsel|]. split.
  - rewrite run_query, (run_search W question 3 m q sims Hq Hs).
    rewrite results_of_ok.
    2:{ apply Forall_forall. intros i Hi.
        destruct Hsel as (_ & _ & Hb & _). specialize (Hb i Hi). lia. }
    rewrite map_map. reflexivity.
  - intros Hd. destruct Hsel as (Hl & _). rewrite Hlen, Hd in Hl.
    apply nil_length_inv. etrans; [exact Hl|apply Nat.min_0_r].
Qed.

(** The three scores: the context is B, then A, then C. *)
Lemma query_context_is_top_three_witness :
  argsort_ok (np_argsort world_search)
  ∧ aligned (self machine_scores)
  ∧ fst (run (query world_search chat_echo "why?") machine_scores)
    = Ok (prompt_template ("B" +:+ nl +:+ "A" +:+ nl +:+ "C") "why?")
  ∧ ∃ top_indices : list nat,
      top_selection [90; 95; 20]%Z 3 top_indices
      ∧ run (query world_search chat_echo "why?") machine_scores
        = (first_choice
             (chat_echo (S (length (trace machine_scores)))
                (prompt_template
                   (PyStr.join nl
                      (map (λ i, nth i (documents (self machine_scores))
                                   EmptyString) top_indices))
                   "why?")),
           log (EmbedCall "why?") machine_scores).
Proof.
  split; [apply stable_argsort_ok|].
  split; [reflexivity|].
  split; [vm_compute; reflexivity|].
  destruct (query_context_is_top_three world_search chat_echo "why?"
              machine_scores [1%Z] [90; 95; 20]%Z)
    as (idxs & Hsel & Hrun & _).
  - apply stable_argsort_ok.
  - reflexivity.
  - reflexivity.
  - reflexivity.
  - exists idxs. split; [exact Hsel|exact Hrun].
Defined.

(** When the embedding of the question cannot be obtained, [query] raises
    the error of the embedding service and the answer service is not asked:
    the outcome is the same whatever the answer service would reply. *)
Theorem query_propagates_embedding_failure (W : World) (chat : AnswerService)
    (question : string) (m : Machine) (e : exn) :
  ollama_embeddings W (length (trace m)) question = Raise e →
  run (query W chat question) m = (Raise e, log (EmbedCall question) m).
Proof.
  intros He. rewrite run_query.
  unfold run, search, mbind, M_bind, ollama_embed. simpl. by rewrite He.
Qed.

Lemma query_propagates_embedding_failure_witness :
  ollama_embeddings world_a_edited_down (length (trace machine_two_files)) "why?"
    = Raise ResponseError
  ∧ run (query world_a_edited_down chat_echo "why?") machine_two_files
    = (Raise ResponseError, log (EmbedCall "why?") machine_two_files).
Proof.
  assert (H : ollama_embeddings world_a_edited_down
                (length (trace machine_two_files)) "why?" = Raise ResponseError)
    by reflexivity.
  split; [exact H|].
  exact (query_propagates_embedding_failure world_a_edited_down chat_echo
           "why?" machine_two_files ResponseError H).
Defined.

(** ** The key of the change detector *)

Lemma visit_metadata (W : World) (directory : Path) (file_extensions : list string)
    (current_files : gset string) (entry : list string) (m : Machine) :
  let abs_path := str (absolute (cwd W) (joinpath directory entry)) in
  let m' := snd (run (visit W directory file_extensions current_files entry) m) in
  metadata (self m') = metadata (self m)
  ∨ metadata (self m')
    = <[abs_path := {| mtime := fs_mtime W abs_path |}]> (metadata (self m)).
Proof.
  cbv zeta. rewrite run_visit. cbv zeta.
  destruct (recognised directory file_extensions entry); [|by left].
  destruct (file_changed W (metadata (self m)) _); [|by left].
  rewrite run_process_file.
  destruct (read_file_content_self W (joinpath directory entry) m) as [Hself _].
  destruct (run (read_file_content W (joinpath directory entry)) m)
    as [[content|e] m1]; simpl in Hself; [|left; simpl; by rewrite Hself].
  destruct (relative_to _ directory) as [r|]; [|left; simpl; by rewrite Hself].
  cbv zeta.
  destruct (find_doc_index (str r) 0 (documents (self m1))) as [i|].
  - destruct (ollama_embeddings W (length (trace m1)) content).
    + case_bool_decide; simpl; rewrite Hself; [by right|by left].
    + simpl. rewrite Hself. by left.
  - destruct (ollama_embeddings W (length (trace m1)) _); simpl; rewrite Hself;
      [by right|by left].
Qed.

Lemma str_relative_not_anchored (p : Path) :
  anchored p = false →
  Forall (λ c, file_name c = true) (parts p) →
  String.prefix "/" (str p) = false.
Proof.
  destruct p as [a ps]. cbn [anchored parts]. intros -> Hall.
  unfold str. cbn [anchored parts].
  destruct ps as [|c ps]; [done|].
  rewrite append_nil_l. by apply join_not_anchored.
Qed.

(** [check_file_changes] looks the file up under [str(file_path)], the
    synchronisation records it under the absolute path: below a directory
    given by a relative path the two keys differ, and the answer of the
    change detector for a file is the same after the file was processed as
    before; a file reported new stays new. *)
Theorem relative_directory_change_detection (W : World) (directory : Path)
    (file_extensions : list string) (current_files : gset string)
    (entry : list string) (m : Machine) :
  let file_path := joinpath directory entry in
  let m' := snd (run (visit W directory file_extensions current_files entry) m) in
  anchored directory = false →
  Forall (λ c, file_name c = true) (parts directory) →
  Forall (λ c, file_name c = true) entry →
  str file_path ≠ str (absolute (cwd W) file_path)
  ∧ file_changed W (metadata (self m')) file_path
    = file_changed W (metadata (self m)) file_path.
Proof.
  intros file_path m' Hrel Hdir Hentry.
  assert (Hne : str file_path ≠ str (absolute (cwd W) file_path)).
  { intros Heq.
    pose proof (str_anchored (absolute (cwd W) file_path)
                  (absolute_anchored _ _)) as H1.
    rewrite <- Heq in H1.
    rewrite str_relative_not_anchored in H1; [done|done|].
    simpl. by apply Forall_app. }
  split; [done|].
  destruct (visit_metadata W directory file_extensions current_files entry m)
    as [Hmd|Hmd]; fold file_path in Hmd; fold m' in Hmd;
    unfold file_changed; rewrite Hmd; [done|].
  by rewrite lookup_insert_ne.
Qed.

(** [a.txt] below [docs], in a new store: added, and still reported new. *)
Lemma relative_directory_change_detection_witness :
  let directory := of_string "docs" in
  let m' := snd (run (visit world_two_files directory default_extensions ∅
                        ["a.txt"]) fresh_machine) in
  anchored directory = false
  ∧ Forall (λ c, file_name c = true) (parts directory)
  ∧ Forall (λ c, file_name c = true) ["a.txt"]
  ∧ length (documents (self m')) = 1
  ∧ file_changed world_two_files (metadata (self m'))
      (joinpath directory ["a.txt"])
    = file_changed world_two_files (metadata (self fresh_machine))
        (joinpath directory ["a.txt"]).
Proof.
  intros directory m'.
  assert (H1 : anchored directory = false) by reflexivity.
  assert (H2 : Forall (λ c, file_name c = true) (parts directory))
    by (repeat constructor).
  assert (H3 : Forall (λ c, file_name c = true) ["a.txt"])
    by (repeat constructor).
  split; [exact H1|]. split; [exact H2|]. split; [exact H3|].
  split; [vm_compute; reflexivity|].
  exact (proj2 (relative_directory_change_detection world_two_files directory
                  default_extensions ∅ ["a.txt"] fresh_machine H1 H2 H3)).
Defined.
